(** * tsv2resume: the line-break scanner, the paragraph formatter,
      the section builder and the renderer

    A shallow embedding of [tsv2resume_fold.py] and [tsv2resume_nofold.py].

    Text.  A Python [str] is a sequence of code points.  The development
    models the code points 0..255 (the ASCII and Latin-1 blocks), one
    [ascii] per code point, and a text as a [list ascii].  The character
    tables below ([isspace], [lower], [upper], [is_word]) are Python's
    tables on that range. *)

From Stdlib Require Import NArith Ascii String.
From stdpp Require Import base tactics option list strings.

Local Open Scope char_scope.
Local Open Scope list_scope.

Abbreviation text := (list ascii).

(** A string literal as a text. *)
Definition str (s : string) : text := list_ascii_of_string s.

Definition NL : ascii := "010".
Definition CR : ascii := "013".
Definition SP : ascii := " ".
Definition LT : ascii := "<".
Definition GT : ascii := ">".
Definition SQ : ascii := "'".
Definition DQ : ascii := "034".

(** ** Character tables *)

Definition code (c : ascii) : N := N_of_ascii c.

Definition between (lo hi : N) (c : ascii) : bool :=
  ((lo <=? code c) && (code c <=? hi))%N.

(** [str.isspace] (and the regular expression class [\s]) on one character:
    TAB..CR, FS..US, space, NEL and NBSP. *)
Definition isspace (c : ascii) : bool :=
  between 9 13 c || between 28 32 c || (code c =? 133)%N || (code c =? 160)%N.

(** [str.lower] on one character: A-Z and the Latin-1 capitals. *)
Definition lower_char (c : ascii) : ascii :=
  if between 65 90 c || between 192 214 c || between 216 222 c
  then ascii_of_N (code c + 32) else c.

Definition lower (t : text) : text := map lower_char t.

(** [str.upper] on one character.  Sharp s becomes two letters; the capitals
    of micro sign and y-diaeresis are U+039C and U+0178, beyond the modelled
    range, and are kept as they are (neither is a letter of any keyword the
    program looks for). *)
Definition upper_char (c : ascii) : text :=
  if between 97 122 c || between 224 246 c || between 248 254 c
  then [ascii_of_N (code c - 32)]
  else if (code c =? 223)%N then str "SS" else [c].

Definition upper (t : text) : text := concat (map upper_char t).

(** The ASCII letters, [[a-zA-Z]]. *)
Definition is_ascii_letter (c : ascii) : bool :=
  between 65 90 c || between 97 122 c.

(** [[a-z0-9]]. *)
Definition is_slug_char (c : ascii) : bool :=
  between 97 122 c || between 48 57 c.

(** The regular expression class [\w]: Unicode alphanumerics and [_]. *)
Definition is_word (c : ascii) : bool :=
  between 48 57 c || is_ascii_letter c || (code c =? 95)%N
  || (code c =? 170)%N || (code c =? 178)%N || (code c =? 179)%N
  || (code c =? 181)%N || (code c =? 185)%N || (code c =? 186)%N
  || between 188 190 c || between 192 214 c || between 216 246 c
  || between 248 255 c.

(** Case-insensitive match of one pattern letter ([re.IGNORECASE]) on the
    modelled range.  Beyond it the program's matcher also takes U+017F for
    the letter S and U+0130, U+0131 for the letter I; a text here cannot
    hold them, so no statement below says which letters a matched keyword
    is made of, only how many characters it has. *)
Definition ci_eq (p c : ascii) : bool :=
  bool_decide (lower_char p = lower_char c).

(** ** String helpers *)

Fixpoint dropwhile {A} (p : A -> bool) (l : list A) : list A :=
  match l with
  | [] => []
  | x :: r => if p x then dropwhile p r else l
  end.

Definition lstrip (t : text) : text := dropwhile isspace t.
Definition rstrip (t : text) : text := rev (dropwhile isspace (rev t)).
(** [str.strip()] *)
Definition strip (t : text) : text := rstrip (lstrip t).

(** [str.strip(chars)] for a one-character set. *)
Definition strip_char (c : ascii) (t : text) : text :=
  rev (dropwhile (fun x => bool_decide (x = c))
         (rev (dropwhile (fun x => bool_decide (x = c)) t))).

(** [str.replace(old, new)] for a one-character [old]. *)
Fixpoint replace_char (old : ascii) (new : text) (t : text) : text :=
  match t with
  | [] => []
  | c :: r => (if bool_decide (c = old) then new else [c]) ++ replace_char old new r
  end.

(** [str.replace("\r\n", "\n")] *)
Fixpoint replace_crlf (t : text) : text :=
  match t with
  | c :: ((d :: r') as r) =>
      if bool_decide (c = CR) && bool_decide (d = NL)
      then NL :: replace_crlf r'
      else c :: replace_crlf r
  | _ => t
  end.

(** ** The tag-aware line-break converter ([nl_to_br_outside_tags])

    The scanner keeps an index [i] into the text, the flags [in_tag] and
    [quote], and the list [out] of emitted chunks. *)

Record scanner := Scanner {
  i : nat;
  in_tag : bool;
  quote : option ascii;
  out : list text;
}.

Definition scan_init : scanner :=
  {| i := 0; in_tag := false; quote := None; out := [] |}.

(** [prev_nonspace idx]: walk left from [idx - 1] over white space; the
    character found, or [None] for Python's empty string.  The loop calls it
    with [idx < n], so the look-up [t !! j] finds a character. *)
Fixpoint prev_nonspace (t : text) (idx : nat) : option ascii :=
  match idx with
  | 0 => None
  | S j =>
      match t !! j with
      | Some c => if isspace c then prev_nonspace t j else Some c
      | None => None
      end
  end.

(** The loop [while j < n and t[j].isspace(): j += 1], run for at most
    [fuel] rounds; it returns the final [j]. *)
Fixpoint skip_space (fuel : nat) (t : text) (j : nat) : nat :=
  match fuel with
  | 0 => j
  | S fuel' =>
      match t !! j with
      | Some c => if isspace c then skip_space fuel' t (S j) else j
      | None => j
      end
  end.

(** [next_nonspace idx]: walk right from [idx + 1] over white space. *)
Definition next_nonspace (t : text) (idx : nat) : option ascii :=
  t !! skip_space (length t) t (S idx).

Definition emit (s : scanner) (chunk : text) : list text := out s ++ [chunk].

(** One round of the [while i < n] loop.  Under the loop's guard the
    look-up [t !! i s] finds the character [ch]. *)
Definition scan_step (t : text) (s : scanner) : scanner :=
  match t !! i s with
  | None => s
  | Some ch =>
      if in_tag s then
        match quote s with
        | Some q =>
            {| i := S (i s); in_tag := true;
               quote := if bool_decide (ch = q) then None else Some q;
               out := emit s [ch] |}
        | None =>
            if bool_decide (ch = SQ) || bool_decide (ch = DQ) then
              {| i := S (i s); in_tag := true; quote := Some ch; out := emit s [ch] |}
            else if bool_decide (ch = GT) then
              {| i := S (i s); in_tag := false; quote := None; out := emit s [ch] |}
            else if bool_decide (ch = NL) then
              {| i := S (i s); in_tag := true; quote := None; out := emit s [SP] |}
            else
              {| i := S (i s); in_tag := true; quote := None; out := emit s [ch] |}
        end
      else if bool_decide (ch = LT) then
        {| i := S (i s); in_tag := true; quote := quote s; out := emit s [ch] |}
      else if bool_decide (ch = NL) then
        if bool_decide (prev_nonspace t (i s) = Some GT)
           && bool_decide (next_nonspace t (i s) = Some LT)
        then
          {| i := skip_space (length t) t (S (i s)); in_tag := false;
             quote := quote s; out := out s |}
        else
          {| i := S (i s); in_tag := false; quote := quote s;
             out := emit s (str "<br>") |}
      else
        {| i := S (i s); in_tag := false; quote := quote s; out := emit s [ch] |}
  end.

(** The loop itself, for at most [fuel] rounds. *)
Fixpoint scan (fuel : nat) (t : text) (s : scanner) : scanner :=
  match fuel with
  | 0 => s
  | S fuel' =>
      if bool_decide (i s < length t) then scan fuel' t (scan_step t s) else s
  end.

(** [nl_to_br_outside_tags t]: every round advances [i], so [length t]
    rounds are enough (see [scan_finishes]). *)
Definition nl_to_br_outside_tags (t : text) : text :=
  concat (out (scan (length t) t scan_init)).

(** ** Reading the scanner's look-around *)

(** [c] is the nearest character before index [idx] that is not white space. *)
Definition nearest_before (t : text) (idx : nat) (c : ascii) : Prop :=
  ∃ j, j < idx ∧ t !! j = Some c ∧ isspace c = false ∧
       ∀ k, j < k < idx → ∃ w, t !! k = Some w ∧ isspace w = true.

(** [c] is the nearest character after index [idx] that is not white space. *)
Definition nearest_after (t : text) (idx : nat) (c : ascii) : Prop :=
  ∃ j, idx < j ∧ t !! j = Some c ∧ isspace c = false ∧
       ∀ k, idx < k < j → ∃ w, t !! k = Some w ∧ isspace w = true.

(** ** The scanner's mode as an automaton over emitted text

    [track] is the effect of one character on [(in_tag, quote)], as
    [scan_step] has it; [settled] says that [scan_step] copies the character
    through in that mode (it is no line break, or it is inside a quoted
    attribute value). *)

Definition mode : Type := bool * option ascii.

Definition mode_of (s : scanner) : mode := (in_tag s, quote s).

Definition track (m : mode) (c : ascii) : mode :=
  match m with
  | (true, Some q) => (true, if bool_decide (c = q) then None else Some q)
  | (true, None) =>
      if bool_decide (c = SQ) || bool_decide (c = DQ) then (true, Some c)
      else if bool_decide (c = GT) then (false, None)
      else (true, None)
  | (false, q) => if bool_decide (c = LT) then (true, q) else (false, q)
  end.

Definition track_text (m : mode) (l : text) : mode := fold_left track l m.

Definition settled (m : mode) (c : ascii) : bool :=
  match m with
  | (true, Some _) => true
  | _ => negb (bool_decide (c = NL))
  end.

Fixpoint settled_text (m : mode) (l : text) : bool :=
  match l with
  | [] => true
  | c :: r => settled m c && settled_text (track m c) r
  end.

(** Outside a tag no quote is open. *)
Definition mode_ok (m : mode) : Prop := m.1 = false → m.2 = None.

(** What the scanner makes of a character inside a tag, outside quotes. *)
Definition in_tag_char (c : ascii) : ascii :=
  if bool_decide (c = NL) then SP else c.

(** ** The paragraph formatter ([auto_html], [maybe_html]) *)

Definition AUTO_PARA : bool := true.

(** [TAG_RE = </?[a-zA-Z][^>]*>]: at a [<], an optional [/], an ASCII
    letter, and a [>] somewhere after it. *)
Definition tag_opens_here (r : text) : bool :=
  match r with
  | x :: r' =>
      if bool_decide (x = "/") then
        match r' with
        | y :: r'' => is_ascii_letter y && bool_decide (GT ∈ r'')
        | [] => false
        end
      else is_ascii_letter x && bool_decide (GT ∈ r')
  | [] => false
  end.

(** [TAG_RE.search(t) is not None] *)
Fixpoint TAG_RE_search (t : text) : bool :=
  match t with
  | [] => false
  | c :: r => (bool_decide (c = LT) && tag_opens_here r) || TAG_RE_search r
  end.

(** After a line break, how many characters the rest [\s*\n] of the
    pattern [\n\s*\n] takes: it runs to the last line break of the white
    space that follows; [None] when there is none. *)
Fixpoint blank_line_after (r : text) : option nat :=
  match r with
  | [] => None
  | c :: r' =>
      if isspace c then
        match blank_line_after r' with
        | Some k => Some (S k)
        | None => if bool_decide (c = NL) then Some 1 else None
        end
      else None
  end.

(** [re.split(r"\n\s*\n", t)], scanning left to right: [cur] is the block
    being collected and [skip] counts the characters of a matched
    separator that are still to be dropped. *)
Fixpoint split_blank_lines (skip : nat) (cur : text) (t : text) : list text :=
  match t with
  | [] => [cur]
  | c :: r =>
      match skip with
      | S k => split_blank_lines k cur r
      | 0 =>
          if bool_decide (c = NL) then
            match blank_line_after r with
            | Some k => cur :: split_blank_lines k [] r
            | None => split_blank_lines 0 (cur ++ [c]) r
            end
          else split_blank_lines 0 (cur ++ [c]) r
      end
  end.

Definition re_split_blank (t : text) : list text := split_blank_lines 0 [] t.

(** [sep.join(l)] *)
Fixpoint join (sep : text) (l : list text) : text :=
  match l with
  | [] => []
  | [x] => x
  | x :: r => x ++ sep ++ join sep r
  end.

(** [t.replace("\r\n", "\n").replace("\r", "\n")] *)
Definition normalize_newlines (t : text) : text :=
  replace_char CR [NL] (replace_crlf t).

Definition paragraph (b : text) : text :=
  str "<p>" ++ replace_char NL (str "<br>") (strip b) ++ str "</p>".

Definition auto_html (t : text) : text :=
  if bool_decide (strip t = []) then []
  else
    let t := normalize_newlines t in
    let has_tags := TAG_RE_search t in
    if negb has_tags then
      let blocks := re_split_blank (strip t) in
      join [NL] (map paragraph blocks)
    else nl_to_br_outside_tags t.

Definition maybe_html (t : text) : text :=
  if AUTO_PARA then auto_html t else t.

(** A blank-line boundary: a line break, white space only, a line break. *)
Definition blank_line_boundary (t : text) : Prop :=
  ∃ a w b, t = a ++ NL :: w ++ NL :: b ∧ Forall (λ c, isspace c = true) w.

(** The boundary test as a computation: some line break is followed by
    white space that holds another line break. *)
Fixpoint has_blank_line (t : text) : bool :=
  match t with
  | [] => false
  | c :: r =>
      (bool_decide (c = NL) && bool_decide (is_Some (blank_line_after r)))
      || has_blank_line r
  end.

(** ** Regular expressions of the builder *)

Fixpoint takewhile {A} (p : A -> bool) (l : list A) : list A :=
  match l with
  | [] => []
  | x :: r => if p x then x :: takewhile p r else []
  end.

(** A literal matched without regard to case at the head of [t]; the rest
    of [t] on success. *)
Fixpoint match_ci (pat t : text) : option text :=
  match pat with
  | [] => Some t
  | p :: pat' =>
      match t with
      | c :: t' => if ci_eq p c then match_ci pat' t' else None
      | [] => None
      end
  end.

(** The group [.*] followed by [$], without [re.MULTILINE] or [re.DOTALL]:
    a run of characters
    other than line breaks that reaches the end of the text, or the one
    line break that ends the text.  The run is the group. *)
Definition dot_star_end (r : text) : option text :=
  let body := takewhile (fun c => negb (bool_decide (c = NL))) r in
  let rest := drop (length body) r in
  if bool_decide (rest = []) || bool_decide (rest = [NL]) then Some body else None.

(** The group [.+] followed by [$]: the same with a run that is not
    empty. *)
Definition dot_plus_end (r : text) : option text :=
  match dot_star_end r with
  | Some (c :: body) => Some (c :: body)
  | _ => None
  end.

(** [\s*] and then the group [.+] up to [$], the white space taken greedily: [k] characters of
    white space first, then fewer. *)
Fixpoint space_then_dot_plus (k : nat) (r : text) : option text :=
  match dot_plus_end (drop k r) with
  | Some g => Some g
  | None =>
      match k with
      | 0 => None
      | S k' => space_then_dot_plus k' r
      end
  end.

(** [re.match] of [^\s*SECTION\s*:\s*] and the group [.+] up to [$], with
    [re.IGNORECASE]: group 1 on a match. *)
Definition sec_match (heading : text) : option text :=
  match match_ci (str "SECTION") (lstrip heading) with
  | Some r1 =>
      match lstrip r1 with
      | c :: r2 =>
          if bool_decide (c = ":")
          then space_then_dot_plus (length (takewhile isspace r2)) r2
          else None
      | [] => None
      end
  | None => None
  end.

(** [re.match] of [^\s*HIDDEN\b] and the group [.*] up to [$], with
    [re.IGNORECASE]: group 1 on a match.  After the word HIDDEN the boundary [\b] asks for the end of the
    text or a character that is not a word character. *)
Definition hidden_match (heading : text) : option text :=
  match match_ci (str "HIDDEN") (lstrip heading) with
  | Some r =>
      if match r with [] => true | c :: _ => negb (is_word c) end
      then dot_star_end r
      else None
  | None => None
  end.

Fixpoint is_prefix (p t : text) : bool :=
  match p with
  | [] => true
  | x :: p' =>
      match t with
      | c :: t' => bool_decide (x = c) && is_prefix p' t'
      | [] => false
      end
  end.

(** [needle in hay] *)
Fixpoint contains (needle hay : text) : bool :=
  is_prefix needle hay ||
  match hay with
  | [] => false
  | _ :: hay' => contains needle hay'
  end.

(** ** [slugify] *)

(** [re.sub] deleting every match of [<[^>]+>]: at a [<] followed by at least one
    character other than [>] and then a [>], everything up to that [>]
    goes; [skipping] is set while inside such a match. *)
Definition tag_ahead (r : text) : bool :=
  match r with
  | c :: r' => negb (bool_decide (c = GT)) && bool_decide (GT ∈ r')
  | [] => false
  end.

Fixpoint strip_tags (skipping : bool) (t : text) : text :=
  match t with
  | [] => []
  | c :: r =>
      if skipping then strip_tags (negb (bool_decide (c = GT))) r
      else if bool_decide (c = LT) && tag_ahead r then strip_tags true r
      else c :: strip_tags false r
  end.

(** [re.sub] of [[^a-z0-9]+] by a hyphen: each run of other characters becomes
    one hyphen; [in_run] is set while inside a run. *)
Fixpoint dash_runs (in_run : bool) (t : text) : text :=
  match t with
  | [] => []
  | c :: r =>
      if is_slug_char c then c :: dash_runs false r
      else if in_run then dash_runs true r
      else "-" :: dash_runs true r
  end.

Definition slugify (t : text) : text :=
  let t := strip_tags false t in
  let t := lower (strip t) in
  let t := strip_char "-" (dash_runs false t) in
  if bool_decide (t = []) then str "section" else t.

(** ** The section tree

    The program keeps rows and sections as dictionaries; the [type] key of a
    row selects one of three shapes. *)

Record FoldItem := { item_html : text; item_meta : text }.

Inductive Row :=
  | RowPair (main meta : text)
  | RowDesc (html : text)
  | RowHidden (summary : text) (open : bool) (items : list FoldItem).

Record Sect := { label : text; id : text; rows : list Row }.

(** [(raw + ["", "", ""])[:3]], then one stripped column. *)
Definition column (raw : list text) (n : nat) : text :=
  strip (default [] (take 3 (raw ++ [[]; []; []]) !! n)).

Definition new_section (name : text) : Sect :=
  {| label := name; id := slugify name; rows := [] |}.

Definition push_row (r : Row) (sec : Sect) : Sect :=
  {| label := label sec; id := id sec; rows := rows sec ++ [r] |}.

(** ** The section builder with fold blocks ([tsv2resume_fold.py])

    [sections] is the list being built.  [current] and [pending_hidden] are
    references into it: [current] names a section by its position, and
    [pending_hidden] names a row of a section by both positions. *)
Module Fold.

Record builder := Builder {
  sections : list Sect;
  current : option nat;
  pending_hidden : option (nat * nat);
}.

Definition builder_init : builder :=
  {| sections := []; current := None; pending_hidden := None |}.

(** The dictionary [current] refers to. *)
Definition current_section (b : builder) : option Sect :=
  current b ≫= λ k, sections b !! k.

Definition start_section (name : text) (b : builder) : builder :=
  {| sections := sections b ++ [new_section name];
     current := Some (length (sections b));
     pending_hidden := None |}.

(** [current["rows"].append(r)] *)
Definition append_row (r : Row) (b : builder) : builder :=
  match current b with
  | Some k =>
      {| sections := alter (push_row r) k (sections b);
         current := current b;
         pending_hidden := pending_hidden b |}
  | None => b
  end.

(** The position the next appended row of [current] will take. *)
Definition next_row (b : builder) : nat :=
  match current_section b with
  | Some sec => length (rows sec)
  | None => 0
  end.

Definition push_item (it : FoldItem) (r : Row) : Row :=
  match r with
  | RowHidden summary open items => RowHidden summary open (items ++ [it])
  | _ => r
  end.

Definition alter_row (f : Row → Row) (j : nat) (sec : Sect) : Sect :=
  {| label := label sec; id := id sec; rows := alter f j (rows sec) |}.

(** [pending_hidden["items"].append(it)] *)
Definition append_item (it : FoldItem) (b : builder) : builder :=
  match pending_hidden b with
  | Some (k, j) =>
      {| sections := alter (alter_row (push_item it) j) k (sections b);
         current := current b;
         pending_hidden := pending_hidden b |}
  | None => b
  end.

(** [if current is None: start_section("Section")] *)
Definition ensure_section (b : builder) : builder :=
  match current b with
  | None => start_section (str "Section") b
  | Some _ => b
  end.

Definition nonempty (t : text) : bool := negb (bool_decide (t = [])).

(** The body of the loop over the rows. *)
Definition build_row (b : builder) (raw : list text) : builder :=
  let heading := column raw 0 in
  let content := column raw 1 in
  let meta := column raw 2 in
  if negb (nonempty heading) && negb (nonempty content) && negb (nonempty meta)
  then b
  else
    match sec_match heading with
    | Some name => start_section (strip name) b
    | None =>
        match hidden_match heading with
        | Some flags =>
            let b := ensure_section b in
            let open_flag := contains (str "OPEN") (upper flags) in
            let block :=
              RowHidden (if nonempty content then content else str "More details")
                open_flag [] in
            let j := next_row b in
            let b := append_row block b in
            {| sections := sections b; current := current b;
               pending_hidden := (λ k, (k, j)) <$> current b |}
        | None =>
            if nonempty heading then
              let b := {| sections := sections b; current := current b;
                          pending_hidden := None |} in
              let b :=
                match current_section b with
                | Some sec =>
                    if bool_decide (heading ≠ label sec)
                    then start_section heading b else b
                | None => start_section heading b
                end in
              if nonempty content || nonempty meta
              then append_row (RowPair content meta) b else b
            else
              match pending_hidden b with
              | Some _ =>
                  if nonempty content || nonempty meta
                  then append_item {| item_html := content; item_meta := meta |} b
                  else b
              | None =>
                  let b := ensure_section b in
                  if nonempty meta
                  then append_row (RowPair content meta) b
                  else append_row (RowDesc content) b
              end
        end
    end.

Definition build_sections (rows : list (list text)) : list Sect :=
  sections (fold_left build_row rows builder_init).

End Fold.

(** ** The section builder without fold blocks ([tsv2resume_nofold.py]) *)
Module NoFold.

Record builder := Builder {
  sections : list Sect;
  current : option nat;
}.

Definition builder_init : builder := {| sections := []; current := None |}.

Definition current_section (b : builder) : option Sect :=
  current b ≫= λ k, sections b !! k.

Definition start_section (name : text) (b : builder) : builder :=
  {| sections := sections b ++ [new_section name];
     current := Some (length (sections b)) |}.

Definition append_row (r : Row) (b : builder) : builder :=
  match current b with
  | Some k =>
      {| sections := alter (push_row r) k (sections b); current := current b |}
  | None => b
  end.

Definition ensure_section (b : builder) : builder :=
  match current b with
  | None => start_section (str "Section") b
  | Some _ => b
  end.

Definition nonempty (t : text) : bool := negb (bool_decide (t = [])).

Definition build_row (b : builder) (raw : list text) : builder :=
  let heading := column raw 0 in
  let content := column raw 1 in
  let meta := column raw 2 in
  if negb (nonempty heading) && negb (nonempty content) && negb (nonempty meta)
  then b
  else
    match sec_match heading with
    | Some name =>
        let b := start_section (strip name) b in
        if nonempty content || nonempty meta
        then append_row (RowPair content meta) b else b
    | None =>
        if nonempty heading then
          let b :=
            match current_section b with
            | Some sec =>
                if bool_decide (heading ≠ label sec)
                then start_section heading b else b
            | None => start_section heading b
            end in
          if nonempty content || nonempty meta
          then append_row (RowPair content meta) b else b
        else
          let b := ensure_section b in
          if nonempty meta
          then append_row (RowPair content meta) b
          else append_row (RowDesc content) b
    end.

Definition build_sections (rows : list (list text)) : list Sect :=
  sections (fold_left build_row rows builder_init).

End NoFold.

(** ** Builder states

    The two builders agree while no fold block is pending. *)
Definition same_state (bf : Fold.builder) (bn : NoFold.builder) : Prop :=
  Fold.sections bf = NoFold.sections bn
  ∧ Fold.current bf = NoFold.current bn
  ∧ Fold.pending_hidden bf = None.

(** The references of the builder point where the program keeps them:
    [current] is the last section of the list, and a pending fold block is
    the last row of that section. *)
Definition refs_ok (b : Fold.builder) : Prop :=
  match Fold.current b with
  | None => Fold.sections b = [] ∧ Fold.pending_hidden b = None
  | Some k =>
      S k = length (Fold.sections b)
      ∧ match Fold.pending_hidden b with
        | None => True
        | Some (k', j) =>
            k' = k
            ∧ ∃ sec summary open items,
                Fold.sections b !! k = Some sec
                ∧ rows sec !! j = Some (RowHidden summary open items)
                ∧ S j = length (rows sec)
        end
  end.

(** ** The renderer ([render_html] of [tsv2resume_fold.py])

    [HTML_HEAD] is the style-sheet shell of the page, a template in which
    the title is substituted once; the renderer only puts it first.  Its
    text is left open here: [HTML_HEAD title] stands for
    [HTML_HEAD.substitute(title=title)]. *)
Section Renderer.

Variable HTML_HEAD : text → text.

Definition line (s : string) : text := str s ++ [NL].

Definition HTML_TAIL : text :=
  line "    </main>" ++ line "  </div>" ++ line "</body>" ++ line "</html>".

(** A quoted attribute value. *)
Definition attr (v : text) : text := [DQ] ++ v ++ [DQ].

Definition has_meta (r : Row) : bool :=
  match r with
  | RowPair _ meta => negb (bool_decide (meta = []))
  | _ => false
  end.

(** [entry_classes], settled before the section's first chunk is emitted. *)
Definition entry_classes (sec : Sect) : text :=
  str "entry" ++ (if negb (existsb has_meta (rows sec)) then str " entry--two" else []).

Definition div_line (indent : string) (class : string) (body : text) : text :=
  str indent ++ str "<div class=" ++ attr (str class) ++ str ">"
    ++ body ++ str "</div>" ++ [NL].

Definition render_item (it : FoldItem) : list text :=
  [str "              <div class=" ++ attr (str "fold-item") ++ str ">" ++ [NL];
   div_line "                " "fold-main" (maybe_html (item_html it))]
  ++ (if negb (bool_decide (item_meta it = []))
      then [div_line "                " "fold-meta" (maybe_html (item_meta it))]
      else [])
  ++ [line "              </div>"].

Definition render_row (r : Row) : list text :=
  match r with
  | RowPair main meta =>
      [div_line "          " "line-main" (maybe_html main)]
      ++ (if negb (bool_decide (meta = []))
          then [div_line "          " "line-meta" (maybe_html meta)]
          else [])
  | RowDesc html => [div_line "          " "desc" (maybe_html html)]
  | RowHidden summary open items =>
      [str "          <details class=" ++ attr (str "fold desc")
         ++ (if open then str " open" else []) ++ str ">" ++ [NL];
       str "            <summary><span class=" ++ attr (str "chev")
         ++ str "></span> " ++ maybe_html summary ++ str "</summary>" ++ [NL];
       str "            <div class=" ++ attr (str "fold-body") ++ str ">" ++ [NL]]
      ++ concat (map render_item items)
      ++ [line "            </div>"; line "          </details>"]
  end.

Definition render_section (sec : Sect) : list text :=
  [str "      <section aria-labelledby=" ++ attr (id sec) ++ str ">" ++ [NL];
   str "        <div class=" ++ attr (entry_classes sec)
     ++ str " id=" ++ attr (id sec) ++ str ">" ++ [NL];
   div_line "          " "label" (label sec)]
  ++ concat (map render_row (rows sec))
  ++ [line "        </div>"; line "      </section>" ++ [NL]].

Definition render_html (title : text) (sections : list Sect) : text :=
  concat
    ([HTML_HEAD title;
      str "      <h1 class=" ++ attr (str "title") ++ str ">" ++ title
        ++ str "</h1>" ++ [NL]]
     ++ concat (map render_section sections)
     ++ [HTML_TAIL]).

End Renderer.

(** The rows the layout decision looks at. *)
Definition is_pair (r : Row) : bool :=
  match r with RowPair _ _ => true | _ => false end.

(** A character is not among those of a given text. *)
Ltac not_in_text :=
  repeat (apply not_elem_of_cons; split; [done|]); apply not_elem_of_nil.

(** ** Shapes of identifiers *)

(** The characters of an identifier: [a-z], [0-9] and the hyphen. *)
Definition slug_ok (c : ascii) : bool := is_slug_char c || bool_decide (c = "-").

(** No two hyphens stand side by side. *)
Fixpoint hyphens_apart (l : text) : Prop :=
  match l with
  | x :: r =>
      match r with
      | y :: _ => ¬ (x = "-" ∧ y = "-")
      | [] => True
      end ∧ hyphens_apart r
  | [] => True
  end.

(** ** Rows as the builders see them *)

(** A row whose three columns are all blank. *)
Definition blank_row (raw : list text) : bool :=
  bool_decide (column raw 0 = []) && bool_decide (column raw 1 = [])
  && bool_decide (column raw 2 = []).

(** The three trimmed columns of a row. *)
Definition three_columns (raw : list text) : list text :=
  [column raw 0; column raw 1; column raw 2].

(** A row of the tree that holds some text. *)
Definition row_filled (r : Row) : Prop :=
  match r with
  | RowPair main meta => main ≠ [] ∨ meta ≠ []
  | RowDesc html => html ≠ []
  | RowHidden summary _ items =>
      summary ≠ [] ∧ Forall (λ it, item_html it ≠ [] ∨ item_meta it ≠ []) items
  end.

(** The pair row a headed row contributes, if any. *)
Definition pair_of (raw : list text) : list Row :=
  if Fold.nonempty (column raw 1) || Fold.nonempty (column raw 2)
  then [RowPair (column raw 1) (column raw 2)] else [].

Definition item_of (raw : list text) : FoldItem :=
  {| item_html := column raw 1; item_meta := column raw 2 |}.

(** ** The renderer without fold blocks ([render_html] of
    [tsv2resume_nofold.py])

    Its loop over the rows treats every row that is not a pair as a
    description and reads the key [html] of it; on a fold block, which has
    no such key, that look-up raises [KeyError], here [None]. *)
Module NoFoldPage.

Definition render_row (r : Row) : option (list text) :=
  match r with
  | RowPair main meta =>
      Some ([div_line "          " "line-main" (maybe_html main)]
            ++ (if negb (bool_decide (meta = []))
                then [div_line "          " "line-meta" (maybe_html meta)]
                else []))
  | RowDesc html => Some [div_line "          " "desc" (maybe_html html)]
  | RowHidden _ _ _ => None
  end.

Definition render_section (sec : Sect) : option (list text) :=
  chunks ← mapM render_row (rows sec);
  Some ([str "      <section aria-labelledby=" ++ attr (id sec) ++ str ">" ++ [NL];
         str "        <div class=" ++ attr (entry_classes sec)
           ++ str " id=" ++ attr (id sec) ++ str ">" ++ [NL];
         div_line "          " "label" (label sec)]
        ++ concat chunks
        ++ [line "        </div>"; line "      </section>" ++ [NL]]).

Definition render_html (HTML_HEAD : text → text) (title : text)
    (sections : list Sect) : option text :=
  body ← mapM render_section sections;
  Some (concat
          ([HTML_HEAD title;
            str "      <h1 class=" ++ attr (str "title") ++ str ">" ++ title
              ++ str "</h1>" ++ [NL]]
           ++ concat body
           ++ [HTML_TAIL])).

End NoFoldPage.

Definition is_hidden (r : Row) : bool :=
  match r with RowHidden _ _ _ => true | _ => false end.

(** ** Words of a remainder

    [words t] are the maximal runs of characters of [t] that are not white
    space, as [str.split()] gives them; [has_token tok t] says that one of
    them is [tok] when put in upper case.  The program does not compute
    these: they say what it would mean for a heading to hold a keyword as a
    word of its own. *)
Fixpoint words_from (cur : text) (t : text) : list text :=
  match t with
  | [] => if bool_decide (cur = []) then [] else [cur]
  | c :: r =>
      if isspace c
      then (if bool_decide (cur = []) then [] else [cur]) ++ words_from [] r
      else words_from (cur ++ [c]) r
  end.

Definition words (t : text) : list text := words_from [] t.

Definition has_token (tok t : text) : bool :=
  existsb (λ w, bool_decide (upper w = tok)) (words t).

(** Four characters that spell OPEN, each letter in either case. *)
Definition spells_OPEN (x : text) : Prop :=
  ∃ o p e n, x = [o; p; e; n]
    ∧ (o = "O" ∨ o = "o") ∧ (p = "P" ∨ p = "p")
    ∧ (e = "E" ∨ e = "e") ∧ (n = "N" ∨ n = "n").

(** * Properties *)

(** ** Facts about the scanner *)

Lemma prev_nonspace_spec t idx c :
  prev_nonspace t idx = Some c ↔ nearest_before t idx c.
Proof.
  induction idx as [|j IH]; simpl.
  - split; [done | intros (j & Hj & _); lia].
  - destruct (t !! j) as [x|] eqn:Hx.
    + destruct (isspace x) eqn:Hsp.
      * rewrite IH. split.
        -- intros (j0 & Hlt & Hc & Hns & Hall). exists j0. repeat split; auto with lia.
           intros k Hk. destruct (decide (k = j)) as [->|]; [eauto|]. apply Hall; lia.
        -- intros (j0 & Hlt & Hc & Hns & Hall).
           destruct (decide (j0 = j)) as [->|]; [congruence|].
           exists j0. repeat split; auto with lia.
      * split.
        -- intros [= <-]. exists j. repeat split; auto with lia.
        -- intros (j0 & Hlt & Hc & Hns & Hall).
           destruct (decide (j0 = j)) as [->|]; [congruence|].
           destruct (Hall j) as (w & Hw & Hws); [lia|]. congruence.
    + split; [done|]. intros (j0 & Hlt & Hc & Hns & Hall).
      destruct (decide (j0 = j)) as [->|]; [congruence|].
      destruct (Hall j) as (w & Hw & Hws); [lia|]. congruence.
Qed.

Lemma skip_space_spec fuel t j :
  length t - j ≤ fuel →
  j ≤ skip_space fuel t j
  ∧ (∀ k, j ≤ k < skip_space fuel t j → ∃ w, t !! k = Some w ∧ isspace w = true)
  ∧ (∀ c, t !! skip_space fuel t j = Some c → isspace c = false).
Proof.
  revert j. induction fuel as [|fuel IH]; intros j Hfuel; simpl.
  - repeat split; [lia | intros; lia |].
    intros c Hc. apply lookup_lt_Some in Hc. lia.
  - destruct (t !! j) as [x|] eqn:Hx.
    + destruct (isspace x) eqn:Hsp.
      * apply lookup_lt_Some in Hx as Hlt.
        destruct (IH (S j)) as (H1 & H2 & H3); [lia|].
        repeat split; [lia | | done].
        intros k Hk. destruct (decide (k = j)) as [->|]; [eauto|]. apply H2; lia.
      * repeat split; [lia | intros; lia |]. congruence.
    + repeat split; [lia | intros; lia |]. congruence.
Qed.

Lemma skip_space_le fuel t j : j ≤ skip_space fuel t j.
Proof.
  revert j. induction fuel as [|fuel IH]; intros j; simpl; [lia|].
  destruct (t !! j); [|lia]. destruct (isspace _); [|lia].
  specialize (IH (S j)). lia.
Qed.

Lemma next_nonspace_spec t idx c :
  next_nonspace t idx = Some c ↔ nearest_after t idx c.
Proof.
  unfold next_nonspace.
  destruct (skip_space_spec (length t) t (S idx)) as (H1 & H2 & H3); [lia|].
  split.
  - intros Hc. exists (skip_space (length t) t (S idx)).
    repeat split; [lia | done | by apply H3 |]. intros k Hk. apply H2; lia.
  - intros (j0 & Hlt & Hc & Hns & Hall).
    assert (skip_space (length t) t (S idx) = j0) as ->; [|done].
    destruct (Nat.lt_trichotomy (skip_space (length t) t (S idx)) j0) as [Hl|[->|Hl]].
    + destruct (Hall (skip_space (length t) t (S idx))) as (w & Hw & Hws); [lia|].
      apply H3 in Hw. congruence.
    + done.
    + destruct (H2 j0) as (w & Hw & Hws); [lia|]. congruence.
Qed.

(** Every round of the loop advances the index. *)
Lemma scan_step_advances t s : i s < length t → i s < i (scan_step t s).
Proof.
  intros Hlt. unfold scan_step.
  destruct (lookup_lt_is_Some_2 t (i s) Hlt) as [ch ->].
  repeat (case_match; simpl; try lia).
  pose proof (skip_space_le (length t) t (S (i s))). lia.
Qed.

(** The loop is over once the fuel covers the rest of the text: [length t]
    rounds always suffice. *)
Lemma scan_finishes fuel t s :
  length t - i s ≤ fuel → length t ≤ i (scan fuel t s).
Proof.
  revert s. induction fuel as [|fuel IH]; intros s Hfuel; simpl; [lia|].
  case_bool_decide as Hlt; [|lia].
  apply IH. pose proof (scan_step_advances t s Hlt). lia.
Qed.

(** More fuel than needed changes nothing. *)
Lemma scan_fuel_irrelevant f1 f2 t s :
  length t - i s ≤ f1 → length t - i s ≤ f2 → scan f1 t s = scan f2 t s.
Proof.
  revert f2 s. induction f1 as [|f1 IH]; intros f2 s H1 H2.
  - destruct f2; simpl; [done|]. case_bool_decide; [lia|done].
  - destruct f2; simpl.
    + case_bool_decide; [lia|done].
    + case_bool_decide as Hlt; [|done].
      pose proof (scan_step_advances t s Hlt). apply IH; lia.
Qed.

(** ** The line break outside a tag *)

Lemma formatting_break_decide t idx :
  bool_decide (prev_nonspace t idx = Some GT)
  && bool_decide (next_nonspace t idx = Some LT) = true
  ↔ nearest_before t idx GT ∧ nearest_after t idx LT.
Proof.
  rewrite andb_true_iff, !bool_decide_eq_true.
  by rewrite prev_nonspace_spec, next_nonspace_spec.
Qed.



(** ** Idempotence *)

Lemma settled_text_app m l1 l2 :
  settled_text m (l1 ++ l2)
  = settled_text m l1 && settled_text (track_text m l1) l2.
Proof.
  revert m. induction l1 as [|c l1 IH]; intros m; simpl; [done|].
  by rewrite IH, andb_assoc.
Qed.

Lemma track_text_app m l1 l2 :
  track_text m (l1 ++ l2) = track_text (track_text m l1) l2.
Proof. apply fold_left_app. Qed.

(** A round on a settled character copies it and follows [track]. *)
Lemma scan_step_settled t s c :
  t !! i s = Some c →
  settled (mode_of s) c = true →
  scan_step t s =
    {| i := S (i s); in_tag := (track (mode_of s) c).1;
       quote := (track (mode_of s) c).2; out := out s ++ [[c]] |}.
Proof.
  intros Hc Hs. unfold scan_step, mode_of, emit in *. rewrite Hc.
  destruct (in_tag s), (quote s) as [q|]; simpl in *;
    repeat (case_bool_decide; simpl in *; try done; subst).
Qed.

(** The scanner copies a settled text through unchanged. *)
Lemma scan_settled suf : ∀ pre s fuel,
  i s = length pre →
  settled_text (mode_of s) suf = true →
  length suf ≤ fuel →
  concat (out (scan fuel (pre ++ suf) s)) = concat (out s) ++ suf.
Proof.
  induction suf as [|c suf IH]; intros pre s fuel Hi Hs Hfuel.
  - rewrite !app_nil_r. destruct fuel; simpl; [done|].
    case_bool_decide; [lia|done].
  - destruct fuel as [|fuel]; simpl in Hfuel; [lia|]. simpl in Hs.
    apply andb_true_iff in Hs as [Hc Hs]. simpl.
    rewrite bool_decide_eq_true_2 by (rewrite length_app; simpl; lia).
    assert (Hlk : (pre ++ c :: suf) !! i s = Some c).
    { rewrite Hi. by rewrite list_lookup_middle. }
    rewrite (scan_step_settled _ _ _ Hlk Hc).
    replace (pre ++ c :: suf) with ((pre ++ [c]) ++ suf) by (by rewrite <- app_assoc).
    rewrite IH.
    + simpl. rewrite concat_app. simpl. by rewrite <- app_assoc.
    + simpl. rewrite length_app. simpl. lia.
    + unfold mode_of at 1. simpl. by rewrite <- surjective_pairing.
    + lia.
Qed.

Lemma quote_not_nl ch :
  bool_decide (ch = SQ) || bool_decide (ch = DQ) = true →
  bool_decide (ch = NL) = false.
Proof. intros H. apply bool_decide_eq_false. intros ->. by vm_compute in H. Qed.

(** What one round emits is settled in the mode it was emitted in, and
    leaves the automaton in the scanner's new mode. *)
Lemma scan_step_emits t s :
  mode_ok (mode_of s) →
  ∃ e, concat (out (scan_step t s)) = concat (out s) ++ e
       ∧ settled_text (mode_of s) e = true
       ∧ track_text (mode_of s) e = mode_of (scan_step t s)
       ∧ mode_ok (mode_of (scan_step t s)).
Proof.
  intros Hok. unfold scan_step, emit, mode_ok, mode_of in *. simpl in *.
  destruct (t !! i s) as [ch|]; [|exists []; by rewrite ?app_nil_r].
  destruct (in_tag s) eqn:Htag; [destruct (quote s) as [q|] eqn:Hq|].
  - exists [ch]. simpl. rewrite concat_app. simpl. by rewrite ?app_nil_r.
  - destruct (bool_decide (ch = SQ) || bool_decide (ch = DQ)) eqn:Hquo;
      [|destruct (bool_decide (ch = GT)) eqn:Hgt;
        [|destruct (bool_decide (ch = NL)) eqn:Hnl]].
    + exists [ch]. simpl. rewrite concat_app, Hquo. simpl. rewrite ?app_nil_r.
      by rewrite (quote_not_nl _ Hquo).
    + exists [ch]. simpl. rewrite concat_app, Hquo, Hgt. simpl. rewrite ?app_nil_r.
      by apply bool_decide_eq_true in Hgt as ->.
    + exists [SP]. simpl. rewrite concat_app. simpl. by rewrite ?app_nil_r.
    + exists [ch]. simpl. rewrite concat_app, Hquo, Hgt, Hnl. simpl.
      by rewrite ?app_nil_r.
  - rewrite (Hok eq_refl).
    destruct (bool_decide (ch = LT)) eqn:Hlt;
      [|destruct (bool_decide (ch = NL)) eqn:Hnl;
        [destruct (bool_decide (prev_nonspace t (i s) = Some GT)
                   && bool_decide (next_nonspace t (i s) = Some LT))|]].
    + exists [ch]. simpl. rewrite concat_app, Hlt. simpl. rewrite ?app_nil_r.
      by apply bool_decide_eq_true in Hlt as ->.
    + exists []. simpl. by rewrite ?app_nil_r.
    + exists (str "<br>"). simpl. rewrite concat_app. simpl.
      by rewrite ?app_nil_r.
    + exists [ch]. simpl. rewrite concat_app, Hlt, Hnl. simpl.
      by rewrite ?app_nil_r.
Qed.

Lemma scan_emits fuel t : ∀ s,
  mode_ok (mode_of s) →
  ∃ e, concat (out (scan fuel t s)) = concat (out s) ++ e
       ∧ settled_text (mode_of s) e = true.
Proof.
  induction fuel as [|fuel IH]; intros s Hok; simpl.
  - exists []. by rewrite app_nil_r.
  - case_bool_decide; [|exists []; by rewrite app_nil_r].
    destruct (scan_step_emits t s Hok) as (e1 & He1 & Hs1 & Ht1 & Hok1).
    destruct (IH _ Hok1) as (e2 & He2 & Hs2).
    exists (e1 ++ e2). split.
    + by rewrite He2, He1, app_assoc.
    + by rewrite settled_text_app, Hs1, Ht1, Hs2.
Qed.

Lemma nl_to_br_settled t :
  settled_text (false, None) (nl_to_br_outside_tags t) = true.
Proof.
  destruct (scan_emits (length t) t scan_init) as (e & He & Hs); [done|].
  unfold nl_to_br_outside_tags. by rewrite He.
Qed.

(** C8.  The converter is idempotent: run on its own output it returns that
    output unchanged. *)
Theorem nl_to_br_idempotent (t : text) :
  nl_to_br_outside_tags (nl_to_br_outside_tags t) = nl_to_br_outside_tags t.
Proof.
  pose proof (nl_to_br_settled t) as Hs.
  unfold nl_to_br_outside_tags at 1.
  apply (scan_settled _ [] scan_init); [done | done | done].
Qed.

(** ** A tag that is never closed *)

(** Running the loop from a state some rounds further on gives the same
    result. *)
Lemma scan_after_step fuel t s :
  length t - i s ≤ fuel → scan fuel t (scan_step t s) = scan fuel t s.
Proof.
  intros Hfuel. destruct (decide (i s < length t)) as [Hlt|Hge].
  - destruct fuel as [|fuel]; [lia|]. simpl scan at 2.
    rewrite bool_decide_eq_true_2 by done.
    pose proof (scan_step_advances t s Hlt).
    apply scan_fuel_irrelevant; lia.
  - unfold scan_step. by rewrite lookup_ge_None_2 by lia.
Qed.

Lemma scan_after_rounds t m :
  scan (length t) t (Nat.iter m (scan_step t) scan_init)
  = scan (length t) t scan_init.
Proof.
  induction m as [|m IH]; simpl; [done|].
  rewrite scan_after_step by lia. done.
Qed.

(** Inside a tag with no quote open, a stretch of text without [>] and
    without quote characters is copied, its line breaks turned to spaces. *)
Lemma scan_in_tag suf : ∀ pre s fuel,
  i s = length pre →
  in_tag s = true →
  quote s = None →
  GT ∉ suf → SQ ∉ suf → DQ ∉ suf →
  length suf ≤ fuel →
  concat (out (scan fuel (pre ++ suf) s))
  = concat (out s) ++ map in_tag_char suf.
Proof.
  induction suf as [|c suf IH]; intros pre s fuel Hi Htag Hq Hgt Hsq Hdq Hfuel.
  - rewrite !app_nil_r. destruct fuel; simpl; [done|].
    case_bool_decide; [lia|done].
  - destruct fuel as [|fuel]; simpl in Hfuel; [lia|].
    apply not_elem_of_cons in Hgt as [Hgt1 Hgt], Hsq as [Hsq1 Hsq], Hdq as [Hdq1 Hdq].
    simpl.
    rewrite bool_decide_eq_true_2 by (rewrite length_app; simpl; lia).
    assert (Hlk : (pre ++ c :: suf) !! i s = Some c).
    { rewrite Hi. by rewrite list_lookup_middle. }
    assert (Hstep : scan_step (pre ++ c :: suf) s =
              {| i := S (i s); in_tag := true; quote := None;
                 out := out s ++ [[in_tag_char c]] |}).
    { unfold scan_step, emit, in_tag_char. rewrite Hlk, Htag, Hq.
      rewrite (bool_decide_eq_false_2 (c = SQ)), (bool_decide_eq_false_2 (c = DQ)),
        (bool_decide_eq_false_2 (c = GT)) by done.
      simpl. by case_bool_decide. }
    rewrite Hstep.
    replace (pre ++ c :: suf) with ((pre ++ [c]) ++ suf) by (by rewrite <- app_assoc).
    rewrite IH; try done.
    + simpl. rewrite concat_app. simpl. by rewrite <- app_assoc.
    + simpl. rewrite length_app. simpl. lia.
    + lia.
Qed.

(** C10, as the code has it.  Let the scanner arrive, after [m] rounds, at a
    [<] with no quoted attribute value open, and let the rest of the text
    hold neither [>] nor a quote character.  Then from that [<] on the text
    is copied with every line break turned into one space: no [<br>] is
    emitted there. *)
Theorem unclosed_tag_to_end (pre suf : text) (m : nat) :
  i (Nat.iter m (scan_step (pre ++ LT :: suf)) scan_init) = length pre →
  quote (Nat.iter m (scan_step (pre ++ LT :: suf)) scan_init) = None →
  GT ∉ suf → SQ ∉ suf → DQ ∉ suf →
  nl_to_br_outside_tags (pre ++ LT :: suf)
  = concat (out (Nat.iter m (scan_step (pre ++ LT :: suf)) scan_init))
    ++ LT :: map in_tag_char suf.
Proof.
  intros Hi Hq Hgt Hsq Hdq. unfold nl_to_br_outside_tags.
  rewrite <- (scan_after_rounds _ m).
  set (t := pre ++ LT :: suf) in *. set (s0 := Nat.iter m (scan_step t) scan_init) in *.
  assert (Hlk : t !! i s0 = Some LT).
  { rewrite Hi. unfold t. by rewrite list_lookup_middle. }
  assert (Hlt : i s0 < length t) by (by apply lookup_lt_Some in Hlk).
  rewrite <- (scan_after_step (length t) t s0) by lia.
  assert (Hstep : scan_step t s0 =
            {| i := S (i s0); in_tag := true; quote := None;
               out := out s0 ++ [[LT]] |}).
  { unfold scan_step, emit. rewrite Hlk, Hq. by destruct (in_tag s0). }
  rewrite Hstep. unfold t.
  replace (pre ++ LT :: suf) with ((pre ++ [LT]) ++ suf) by (by rewrite <- app_assoc).
  rewrite scan_in_tag; try done.
  - simpl. rewrite concat_app. simpl. by rewrite <- app_assoc.
  - simpl. rewrite length_app. simpl. lia.
  - rewrite !length_app. simpl. lia.
Qed.

Lemma unclosed_tag_to_end_witness :
  i (Nat.iter 1 (scan_step (str "a" ++ LT :: [NL; "b"])) scan_init) = length (str "a")
  ∧ quote (Nat.iter 1 (scan_step (str "a" ++ LT :: [NL; "b"])) scan_init) = None
  ∧ (GT ∉ [NL; "b"]) ∧ (SQ ∉ [NL; "b"]) ∧ (DQ ∉ [NL; "b"])
  ∧ nl_to_br_outside_tags (str "a" ++ LT :: [NL; "b"])
    = concat (out (Nat.iter 1 (scan_step (str "a" ++ LT :: [NL; "b"])) scan_init))
      ++ LT :: map in_tag_char [NL; "b"].
Proof.
  assert (H1 : GT ∉ [NL; "b"]) by not_in_text.
  assert (H2 : SQ ∉ [NL; "b"]) by not_in_text.
  assert (H3 : DQ ∉ [NL; "b"]) by not_in_text.
  split; [reflexivity|]. split; [reflexivity|].
  split; [exact H1|]. split; [exact H2|]. split; [exact H3|].
  exact (unclosed_tag_to_end (str "a") [NL; "b"] 1 eq_refl eq_refl H1 H2 H3).
Defined.

(** C10 as stated fails when the [<] stands inside a quoted attribute
    value: the quote was opened before it, and the line break after it is
    copied as a line break. *)
Lemma unclosed_tag_in_quote_counterexample :
  (GT ∉ [NL; "b"]) ∧ (SQ ∉ [NL; "b"]) ∧ (DQ ∉ [NL; "b"])
  ∧ nl_to_br_outside_tags (str "<a '" ++ LT :: [NL; "b"])
    = str "<a '" ++ LT :: [NL; "b"]
  ∧ ¬ ∃ o, nl_to_br_outside_tags (str "<a '" ++ LT :: [NL; "b"])
           = o ++ LT :: map in_tag_char [NL; "b"].
Proof.
  repeat split; try not_in_text.
  intros [o Ho]. vm_compute in Ho.
  apply (f_equal (@rev ascii)) in Ho. rewrite rev_app_distr in Ho. by vm_compute in Ho.
Qed.

(** The scanner stops at every character that is not white space: the
    index never jumps over one. *)
Lemma scan_step_not_past t s k c :
  t !! k = Some c → isspace c = false →
  i s < k → i (scan_step t s) ≤ k.
Proof.
  intros Hk Hns Hlt. unfold scan_step.
  destruct (t !! i s) as [ch|]; [|lia].
  repeat (case_match; simpl; try lia).
  destruct (skip_space_spec (length t) t (S (i s))) as (Hs1 & Hs2 & Hs3); [lia|].
  destruct (decide (skip_space (length t) t (S (i s)) ≤ k)) as [|Hgt]; [done|].
  destruct (Hs2 k) as (w & Hw & Hws); [lia|]. congruence.
Qed.

Lemma scan_arrives_from t k c :
  t !! k = Some c → isspace c = false →
  ∀ d s, k - i s ≤ d → i s ≤ k →
  ∃ m, i (Nat.iter m (scan_step t) s) = k.
Proof.
  intros Hk Hns. induction d as [|d IH]; intros s Hd Hle.
  - exists 0. simpl. lia.
  - destruct (decide (i s = k)) as [|Hne]; [by exists 0|].
    assert (Hlt : i s < length t) by (apply lookup_lt_Some in Hk; lia).
    pose proof (scan_step_advances t s Hlt).
    pose proof (scan_step_not_past t s k c Hk Hns).
    destruct (IH (scan_step t s)) as [m Hm]; [lia | lia |].
    exists (S m). by rewrite Nat.iter_succ_r.
Qed.

Lemma scan_arrives t k c :
  t !! k = Some c → isspace c = false →
  ∃ m, i (Nat.iter m (scan_step t) scan_init) = k.
Proof.
  intros Hk Hns. apply (scan_arrives_from t k c Hk Hns k); simpl; lia.
Qed.

(** ** The paragraph formatter on plain text *)

Lemma dropwhile_suffix {A} (p : A → bool) l :
  ∃ w, l = w ++ dropwhile p l ∧ Forall (λ x, p x = true) w.
Proof.
  induction l as [|x l (w & Hw & Hall)]; simpl.
  - by exists [].
  - destruct (p x) eqn:Hp.
    + exists (x :: w). split; [by rewrite Hw at 1 | by constructor].
    + by exists [].
Qed.

Lemma dropwhile_head {A} (p : A → bool) l x r :
  dropwhile p l = x :: r → p x = false.
Proof.
  induction l as [|y l IH]; simpl; [done|].
  destruct (p y) eqn:Hp; [done|]. by intros [= -> ->].
Qed.

Lemma dropwhile_fixed {A} (p : A → bool) x r :
  p x = false → dropwhile p (x :: r) = x :: r.
Proof. intros Hp. simpl. by rewrite Hp. Qed.

Lemma dropwhile_idemp {A} (p : A → bool) l :
  dropwhile p (dropwhile p l) = dropwhile p l.
Proof.
  destruct (dropwhile p l) as [|x r] eqn:Hd; [done|].
  apply dropwhile_fixed. by apply dropwhile_head in Hd.
Qed.

(** [rstrip] keeps a prefix and [lstrip] a suffix. *)
Lemma rstrip_prefix t :
  ∃ w, t = rstrip t ++ w ∧ Forall (λ c, isspace c = true) w.
Proof.
  unfold rstrip. destruct (dropwhile_suffix isspace (rev t)) as (w & Hw & Hall).
  exists (rev w). split.
  - rewrite <- rev_app_distr, <- Hw. by rewrite rev_involutive.
  - by apply Forall_rev.
Qed.

Lemma rstrip_idemp t : rstrip (rstrip t) = rstrip t.
Proof. unfold rstrip. by rewrite rev_involutive, dropwhile_idemp. Qed.

Lemma lstrip_rstrip_lstrip t : lstrip (rstrip (lstrip t)) = rstrip (lstrip t).
Proof.
  unfold lstrip at 1.
  destruct (rstrip (lstrip t)) as [|x r] eqn:Hr; [done|].
  apply dropwhile_fixed.
  destruct (rstrip_prefix (lstrip t)) as (w & Hw & _). rewrite Hr in Hw.
  unfold lstrip in Hw. simpl in Hw. by apply dropwhile_head in Hw.
Qed.

Lemma strip_idemp t : strip (strip t) = strip t.
Proof. unfold strip. by rewrite lstrip_rstrip_lstrip, rstrip_idemp. Qed.

(** The trimmed text sits inside the text. *)
Lemma strip_infix t : ∃ w1 w2, t = w1 ++ strip t ++ w2.
Proof.
  unfold strip.
  destruct (dropwhile_suffix isspace t) as (w1 & H1 & _).
  destruct (rstrip_prefix (lstrip t)) as (w2 & H2 & _).
  exists w1, w2. unfold lstrip in *. by rewrite <- H2.
Qed.

Lemma blank_line_boundary_strip t :
  blank_line_boundary (strip t) → blank_line_boundary t.
Proof.
  intros (a & w & b & Heq & Hall).
  destruct (strip_infix t) as (w1 & w2 & Ht).
  exists (w1 ++ a), w, (b ++ w2). split; [|done].
  rewrite Heq in Ht. rewrite Ht at 1.
  rewrite <- !app_assoc. simpl. by rewrite <- !app_assoc.
Qed.

Lemma blank_line_after_spec r k :
  blank_line_after r = Some k →
  ∃ w b, r = w ++ NL :: b ∧ Forall (λ c, isspace c = true) w.
Proof.
  revert k. induction r as [|c r IH]; intros k; simpl; [done|].
  destruct (isspace c) eqn:Hsp; [|done].
  destruct (blank_line_after r) as [k'|].
  - intros _. destruct (IH k' eq_refl) as (w & b & -> & Hall).
    exists (c :: w), b. split; [done | by constructor].
  - case_bool_decide as Hc; [|done]. intros _. subst c.
    by exists [], r.
Qed.

(** Without a blank-line boundary the split leaves one block. *)
Lemma split_blank_lines_whole t : ∀ cur,
  ¬ blank_line_boundary (cur ++ t) →
  split_blank_lines 0 cur t = [cur ++ t].
Proof.
  induction t as [|c r IH]; intros cur Hnb; simpl.
  - by rewrite app_nil_r.
  - assert (Hnext : split_blank_lines 0 (cur ++ [c]) r = [cur ++ c :: r]).
    { rewrite IH; rewrite <- app_assoc; done. }
    case_bool_decide as Hc; [|done]. subst c.
    destruct (blank_line_after r) as [k|] eqn:Hk; [|done].
    destruct (blank_line_after_spec r k Hk) as (w & b & -> & Hall).
    exfalso. apply Hnb. by exists cur, w, b.
Qed.

(** C7, as the code has it.  A text that is not blank, holds no markup tag
    and, once its line endings are normalised, no blank-line boundary comes
    back as one paragraph container; inside it stands the normalised text,
    trimmed, with every line break replaced by [<br>]. *)
Theorem auto_html_single_paragraph (t : text) :
  strip t ≠ [] →
  TAG_RE_search (normalize_newlines t) = false →
  ¬ blank_line_boundary (normalize_newlines t) →
  auto_html t
  = str "<p>"
    ++ replace_char NL (str "<br>") (strip (normalize_newlines t))
    ++ str "</p>".
Proof.
  intros Hne Htag Hnb. unfold auto_html.
  rewrite bool_decide_eq_false_2 by done. simpl. rewrite Htag. simpl.
  unfold re_split_blank. rewrite split_blank_lines_whole.
  - simpl. unfold paragraph. by rewrite strip_idemp.
  - simpl. intros Hb. by apply Hnb, blank_line_boundary_strip.
Qed.

Lemma blank_line_after_complete w b :
  Forall (λ c, isspace c = true) w → is_Some (blank_line_after (w ++ NL :: b)).
Proof.
  induction 1 as [|c w Hc _ IH]; simpl.
  - destruct (blank_line_after b); by eauto.
  - rewrite Hc. destruct IH as [k ->]. by eauto.
Qed.

Lemma has_blank_line_complete t :
  blank_line_boundary t → has_blank_line t = true.
Proof.
  intros (a & w & b & -> & Hall). induction a as [|c a IH]; simpl.
  - by rewrite (bool_decide_eq_true_2 (is_Some _))
      by (by apply blank_line_after_complete).
  - rewrite IH. apply orb_true_r.
Qed.

Lemma no_blank_line t : has_blank_line t = false → ¬ blank_line_boundary t.
Proof. intros Hf Hb. apply has_blank_line_complete in Hb. congruence. Qed.

Lemma auto_html_single_paragraph_witness :
  strip (str "a" ++ NL :: str "b ") ≠ []
  ∧ TAG_RE_search (normalize_newlines (str "a" ++ NL :: str "b ")) = false
  ∧ ¬ blank_line_boundary (normalize_newlines (str "a" ++ NL :: str "b "))
  ∧ auto_html (str "a" ++ NL :: str "b ") = str "<p>a<br>b</p>".
Proof.
  assert (H1 : strip (str "a" ++ NL :: str "b ") ≠ []) by (vm_compute; discriminate).
  assert (H3 : ¬ blank_line_boundary (normalize_newlines (str "a" ++ NL :: str "b ")))
    by (by apply no_blank_line).
  split; [exact H1|]. split; [reflexivity|]. split; [exact H3|].
  exact (auto_html_single_paragraph (str "a" ++ NL :: str "b ") H1 eq_refl H3).
Defined.

(** C7 as stated fails on blank text, which comes back empty and not as a
    paragraph, and on text with white space at an end, which is trimmed. *)
Lemma auto_html_single_paragraph_counterexample :
  (TAG_RE_search [] = false
   ∧ ¬ blank_line_boundary []
   ∧ auto_html [] = []
   ∧ auto_html [] ≠ str "<p>" ++ replace_char NL (str "<br>") [] ++ str "</p>")
  ∧ (TAG_RE_search (str " a") = false
     ∧ ¬ blank_line_boundary (str " a")
     ∧ auto_html (str " a") = str "<p>a</p>"
     ∧ auto_html (str " a")
       ≠ str "<p>" ++ replace_char NL (str "<br>") (str " a") ++ str "</p>").
Proof.
  repeat split; try (by apply no_blank_line); try (vm_compute; congruence).
Qed.

(** ** The builder on a row with a plain heading *)

Section PlainHeading.
Import Fold.

Lemma nonempty_true t : nonempty t = true ↔ t ≠ [].
Proof. unfold nonempty. rewrite negb_true_iff, bool_decide_eq_false. done. Qed.

Lemma nonempty_false t : nonempty t = false ↔ t = [].
Proof. unfold nonempty. rewrite negb_false_iff, bool_decide_eq_true. done. Qed.

(** C2.  A row whose trimmed heading is not empty and is neither sentinel
    clears the pending fold block.  It starts a new section, labelled with
    the heading, exactly when there is no current section or the heading is
    not the current section's label; otherwise the current section goes on.
    A pair row of content and meta is appended exactly when one of the two
    is not empty. *)
Theorem plain_heading_row (b : builder) (raw : list text) :
  column raw 0 ≠ [] →
  sec_match (column raw 0) = None →
  hidden_match (column raw 0) = None →
  ∃ appended : list Row,
    (appended = [RowPair (column raw 1) (column raw 2)]
       ∧ (column raw 1 ≠ [] ∨ column raw 2 ≠ [])
     ∨ appended = [] ∧ column raw 1 = [] ∧ column raw 2 = [])
    ∧ pending_hidden (build_row b raw) = None
    ∧ (length (sections (build_row b raw)) = S (length (sections b))
       ↔ ∀ sec, current_section b = Some sec → column raw 0 ≠ label sec)
    ∧ ((∀ sec, current_section b = Some sec → column raw 0 ≠ label sec) →
         sections (build_row b raw)
         = sections b ++ [{| label := column raw 0;
                             id := slugify (column raw 0);
                             rows := appended |}]
         ∧ current (build_row b raw) = Some (length (sections b)))
    ∧ (∀ k sec, current b = Some k → sections b !! k = Some sec →
         column raw 0 = label sec →
         sections (build_row b raw)
         = <[k := {| label := label sec; id := id sec;
                     rows := rows sec ++ appended |}]> (sections b)
         ∧ current (build_row b raw) = Some k).
Proof.
  intros Hh Hsec Hhid.
  exists (if nonempty (column raw 1) || nonempty (column raw 2)
          then [RowPair (column raw 1) (column raw 2)] else []).
  split; [|].
  { destruct (nonempty (column raw 1)) eqn:H1; simpl.
    - left. split; [done|]. left. by apply nonempty_true.
    - destruct (nonempty (column raw 2)) eqn:H2.
      + left. split; [done|]. right. by apply nonempty_true.
      + right. by rewrite <- !nonempty_false. }
  set (appended := if nonempty (column raw 1) || nonempty (column raw 2)
                   then [RowPair (column raw 1) (column raw 2)] else []).
  (* what the row does when it starts a section *)
  assert (Hnew : ∀ b0 : builder,
    let b1 := start_section (column raw 0) b0 in
    sections (if nonempty (column raw 1) || nonempty (column raw 2)
              then append_row (RowPair (column raw 1) (column raw 2)) b1 else b1)
    = sections b0 ++ [{| label := column raw 0; id := slugify (column raw 0);
                         rows := appended |}]
    ∧ current (if nonempty (column raw 1) || nonempty (column raw 2)
               then append_row (RowPair (column raw 1) (column raw 2)) b1 else b1)
      = Some (length (sections b0))
    ∧ pending_hidden (if nonempty (column raw 1) || nonempty (column raw 2)
               then append_row (RowPair (column raw 1) (column raw 2)) b1 else b1)
      = None).
  { intros b0. unfold appended.
    destruct (nonempty (column raw 1) || nonempty (column raw 2)); simpl; [|done].
    unfold append_row. simpl.
    by rewrite alter_app_r_alt, Nat.sub_diag by done. }
  unfold build_row. rewrite Hsec, Hhid.
  apply nonempty_true in Hh as Hne. rewrite Hne. simpl.
  set (b0 := {| sections := sections b; current := current b;
                pending_hidden := None |}).
  assert (Hcs : current_section b0 = current_section b) by done.
  rewrite Hcs.
  destruct (current_section b) as [sec|] eqn:Hsecb;
    [case_bool_decide as Hlab|].
  - (* the heading differs: a new section *)
    destruct (Hnew b0) as (Hs & Hc & Hp). simpl in Hs, Hc, Hp.
    split; [done|]. split.
    { rewrite Hs, length_app. simpl. split; [|lia]. by intros _ ? [= <-]. }
    split; [done|].
    intros k sec0 Hk Hlk Heq. exfalso.
    unfold current_section in Hsecb. rewrite Hk in Hsecb. simpl in Hsecb.
    congruence.
  - (* the same heading: the current section goes on *)
    unfold current_section in Hsecb.
    destruct (current b) as [k|] eqn:Hcur; [|done]. simpl in Hsecb.
    clear Hcs. subst b0.
    set (b0 := {| sections := sections b; current := Some k;
                  pending_hidden := None |}).
    assert (Hs : sections (if nonempty (column raw 1) || nonempty (column raw 2)
                  then append_row (RowPair (column raw 1) (column raw 2)) b0 else b0)
                 = <[k := {| label := label sec; id := id sec;
                             rows := rows sec ++ appended |}]> (sections b)).
    { unfold appended, b0.
      destruct (nonempty (column raw 1) || nonempty (column raw 2)).
      - unfold append_row. simpl.
        apply list_eq. intros n. destruct (decide (n = k)) as [->|Hn].
        + rewrite list_lookup_alter_eq, list_lookup_insert_eq, Hsecb; [done|].
          by apply lookup_lt_Some in Hsecb.
        + by rewrite list_lookup_alter_ne, list_lookup_insert_ne.
      - simpl. rewrite app_nil_r. symmetry. destruct sec. by apply list_insert_id. }
    assert (Hc : current (if nonempty (column raw 1) || nonempty (column raw 2)
                  then append_row (RowPair (column raw 1) (column raw 2)) b0 else b0)
                 = Some k).
    { destruct (nonempty (column raw 1) || nonempty (column raw 2)); [|done].
      by unfold append_row. }
    assert (Hp : pending_hidden (if nonempty (column raw 1) || nonempty (column raw 2)
                  then append_row (RowPair (column raw 1) (column raw 2)) b0 else b0)
                 = None).
    { destruct (nonempty (column raw 1) || nonempty (column raw 2)); [|done].
      by unfold append_row. }
    split; [done|]. split.
    { rewrite Hs, length_insert. split; [lia|]. intros H. by destruct (H sec). }
    split; [intros H; by destruct (H sec)|].
    intros k0 sec0 [= <-] Hlk0 _. rewrite Hsecb in Hlk0. injection Hlk0 as <-.
    done.
  - (* no current section *)
    destruct (Hnew b0) as (Hs & Hc & Hp). simpl in Hs, Hc, Hp.
    split; [done|]. split.
    { rewrite Hs, length_app. simpl. split; [done|lia]. }
    split; [done|].
    intros k sec0 Hk Hlk Heq. exfalso.
    unfold current_section in Hsecb. rewrite Hk in Hsecb. simpl in Hsecb.
    congruence.
Qed.

End PlainHeading.

Lemma plain_heading_row_witness :
  column [str "Acme Inc"; str "Engineer"; str "2020-2022"] 0 ≠ []
  ∧ sec_match (column [str "Acme Inc"; str "Engineer"; str "2020-2022"] 0) = None
  ∧ hidden_match (column [str "Acme Inc"; str "Engineer"; str "2020-2022"] 0) = None
  ∧ Fold.pending_hidden
      (Fold.build_row (Fold.Builder [new_section (str "Work")] (Some 0) None)
         [str "Acme Inc"; str "Engineer"; str "2020-2022"]) = None.
Proof.
  assert (H1 : column [str "Acme Inc"; str "Engineer"; str "2020-2022"] 0 ≠ [])
    by (vm_compute; discriminate).
  split; [exact H1|]. split; [reflexivity|]. split; [reflexivity|].
  destruct (plain_heading_row (Fold.Builder [new_section (str "Work")] (Some 0) None)
              [str "Acme Inc"; str "Engineer"; str "2020-2022"] H1 eq_refl eq_refl)
    as (appended & _ & Hp & _).
  exact Hp.
Defined.

(** ** The fold-start sentinel *)

Lemma match_ci_split pat : ∀ t r,
  match_ci pat t = Some r → ∃ kw, t = kw ++ r ∧ lower kw = lower pat.
Proof.
  induction pat as [|p pat IH]; intros t r; simpl.
  - intros [= <-]. by exists [].
  - destruct t as [|c t]; [done|]. unfold ci_eq. case_bool_decide as Hc; [|done].
    intros Hm. destruct (IH _ _ Hm) as (kw & -> & Hkw).
    exists (c :: kw). simpl. by rewrite Hkw, Hc.
Qed.

Lemma takewhile_drop {A} (p : A → bool) l :
  takewhile p l ++ drop (length (takewhile p l)) l = l.
Proof.
  induction l as [|x l IH]; simpl; [done|].
  destruct (p x); simpl; [by rewrite IH | done].
Qed.

Lemma dot_star_end_split r body :
  dot_star_end r = Some body → r = body ∨ r = body ++ [NL].
Proof.
  unfold dot_star_end.
  pose proof (takewhile_drop (λ c, negb (bool_decide (c = NL))) r) as Hr.
  destruct (bool_decide _ || bool_decide _) eqn:Hb; [|done].
  intros [= <-]. apply orb_true_iff in Hb as [Hb|Hb];
    apply bool_decide_eq_true in Hb; rewrite Hb in Hr.
  - left. by rewrite app_nil_r in Hr.
  - by right.
Qed.

(** A trimmed text neither starts nor ends with white space. *)
Lemma strip_last t y c : strip t = y ++ [c] → isspace c = false.
Proof.
  unfold strip, rstrip. intros H. apply (f_equal (@rev _)) in H.
  rewrite rev_involutive, rev_unit in H. by apply dropwhile_head in H.
Qed.

Lemma lstrip_strip t : lstrip (strip t) = strip t.
Proof. apply lstrip_rstrip_lstrip. Qed.

Lemma hidden_match_split t flags :
  hidden_match (strip t) = Some flags →
  ∃ kw, strip t = kw ++ flags ∧ lower kw = str "hidden".
Proof.
  unfold hidden_match. rewrite lstrip_strip.
  destruct (match_ci (str "HIDDEN") (strip t)) as [r|] eqn:Hm; [|done].
  destruct (match_ci_split _ _ _ Hm) as (kw & Hkw & Hlow).
  destruct (match r with [] => true | c :: _ => negb (is_word c) end); [|done].
  intros Hd. exists kw. split; [|done].
  destruct (dot_star_end_split _ _ Hd) as [->| ->]; [done|].
  rewrite app_assoc in Hkw. by apply strip_last in Hkw.
Qed.

Lemma hidden_match_not_section h flags :
  hidden_match h = Some flags → sec_match h = None.
Proof.
  unfold hidden_match, sec_match.
  destruct (lstrip h) as [|c r]; [done|]. simpl.
  unfold ci_eq. case_bool_decide as Hh; [|done]. intros _.
  case_bool_decide as Hs; [|done]. rewrite <- Hh in Hs. by vm_compute in Hs.
Qed.

Lemma hidden_match_nonempty h flags : hidden_match h = Some flags → h ≠ [].
Proof. by intros H ->. Qed.

(** [upper] and the letters of OPEN *)

Lemma upper_char_shape c : upper_char c = str "SS" ∨ upper_char c = [hd c (upper_char c)].
Proof.
  unfold upper_char. repeat case_match; simpl; auto.
Qed.

Lemma upper_char_single c x : upper_char c = [x] → lower_char c = lower_char x.
Proof.
  destruct c as [[] [] [] [] [] [] [] []]; intros H; vm_compute in H;
    try discriminate; injection H as <-; reflexivity.
Qed.

Lemma upper_char_of_lower c :
  between 97 122 (lower_char c) = true →
  upper_char c = [ascii_of_N (code (lower_char c) - 32)].
Proof.
  destruct c as [[] [] [] [] [] [] [] []]; intros H; vm_compute in H;
    try discriminate; reflexivity.
Qed.

Lemma upper_app a b : upper (a ++ b) = upper a ++ upper b.
Proof. unfold upper. by rewrite map_app, concat_app. Qed.

Lemma is_prefix_app n b : is_prefix n (n ++ b) = true.
Proof.
  induction n as [|x n IH]; simpl; [done|].
  by rewrite bool_decide_eq_true_2, IH.
Qed.

Lemma contains_prefix n t : is_prefix n t = true → contains n t = true.
Proof. destruct t; simpl; by intros ->. Qed.

Lemma contains_app n a b : contains n (a ++ n ++ b) = true.
Proof.
  induction a as [|x a IH]; simpl.
  - apply contains_prefix, is_prefix_app.
  - rewrite IH. apply orb_true_r.
Qed.

Lemma is_prefix_upper_step x p t :
  x ≠ "S" →
  is_prefix (x :: p) (upper t) = true →
  ∃ c r, t = c :: r ∧ upper_char c = [x] ∧ is_prefix p (upper r) = true.
Proof.
  intros Hx. destruct t as [|c r]; [done|].
  change (upper (c :: r)) with (upper_char c ++ upper r).
  destruct (upper_char_shape c) as [Hc|Hc]; rewrite Hc; simpl.
  - case_bool_decide; [done|done].
  - case_bool_decide as Heq; [|done]. simpl. intros Hp.
    exists c, r. by rewrite Hc, Heq.
Qed.

Lemma contains_upper_step x p c r :
  x ≠ "S" →
  contains (x :: p) (upper (c :: r)) = true →
  is_prefix (x :: p) (upper (c :: r)) = true ∨ contains (x :: p) (upper r) = true.
Proof.
  intros Hx. change (upper (c :: r)) with (upper_char c ++ upper r).
  destruct (upper_char_shape c) as [Hc|Hc]; rewrite Hc.
  - change (str "SS" ++ upper r) with ("S" :: "S" :: upper r).
    cbn [contains is_prefix]. rewrite !(bool_decide_eq_false_2 (x = "S")) by done.
    simpl. auto.
  - change ([hd c (upper_char c)] ++ upper r) with (hd c (upper_char c) :: upper r).
    cbn [contains]. rewrite orb_true_iff. tauto.
Qed.

(** What [upper] and the membership test decide: some four characters in a
    row spell OPEN, in either case. *)
Lemma contains_OPEN_upper flags :
  contains (str "OPEN") (upper flags) = true
  ↔ ∃ a x c, flags = a ++ x ++ c ∧ lower x = str "open".
Proof.
  split.
  - induction flags as [|c0 r IH]; [done|]. intros Hc.
    apply contains_upper_step in Hc as [Hp|Hc]; [| |done].
    + apply is_prefix_upper_step in Hp as (c1 & r1 & [= <- <-] & H1 & Hp); [|done].
      apply is_prefix_upper_step in Hp as (c2 & r2 & -> & H2 & Hp); [|done].
      apply is_prefix_upper_step in Hp as (c3 & r3 & -> & H3 & Hp); [|done].
      apply is_prefix_upper_step in Hp as (c4 & r4 & -> & H4 & Hp); [|done].
      exists [], [c0; c2; c3; c4], r4. split; [done|]. simpl.
      by rewrite (upper_char_single _ _ H1), (upper_char_single _ _ H2),
        (upper_char_single _ _ H3), (upper_char_single _ _ H4).
    + destruct (IH Hc) as (a & x & c & -> & Hx). by exists (c0 :: a), x, c.
  - intros (a & x & c & -> & Hx). rewrite !upper_app.
    assert (upper x = str "OPEN") as ->; [|apply contains_app].
    destruct x as [|c1 [|c2 [|c3 [|c4 [|]]]]]; try done.
    injection Hx as H1 H2 H3 H4. unfold upper. simpl.
    rewrite !upper_char_of_lower by (by rewrite ?H1, ?H2, ?H3, ?H4).
    by rewrite H1, H2, H3, H4.
Qed.

Lemma dot_star_end_no_newline r g : dot_star_end r = Some g → NL ∉ g.
Proof.
  unfold dot_star_end. destruct (_ || _); [|done]. intros [= <-].
  induction r as [|c r IH]; simpl; [apply not_elem_of_nil|].
  case_bool_decide as Hc; simpl; [apply not_elem_of_nil|].
  apply not_elem_of_cons. split; [congruence|done].
Qed.

(** What the fold-start pattern leaves as the remainder: it holds no line
    break and does not start with a word character. *)
Lemma hidden_match_flags h flags :
  hidden_match h = Some flags →
  (NL ∉ flags) ∧ (∀ c r, flags = c :: r → is_word c = false).
Proof.
  unfold hidden_match.
  destruct (match_ci (str "HIDDEN") (lstrip h)) as [r|]; [|done].
  destruct r as [|c0 r0].
  - intros Hd. split; [by eapply dot_star_end_no_newline|].
    intros c r ->. unfold dot_star_end in Hd. simpl in Hd. by injection Hd.
  - destruct (is_word c0) eqn:Hw; [done|]. simpl. intros Hd.
    split; [by eapply dot_star_end_no_newline|].
    intros c r ->. unfold dot_star_end in Hd.
    destruct (_ || _); [|done]. injection Hd as Hd. simpl in Hd.
    destruct (bool_decide (c0 = NL)); simpl in Hd; [done|]. by injection Hd as -> _.
Qed.

Lemma lower_char_letter c :
  between 97 122 (lower_char c) = true →
  c = lower_char c ∨ c = ascii_of_N (code (lower_char c) - 32).
Proof.
  destruct c as [[] [] [] [] [] [] [] []]; intros H; vm_compute in H;
    try discriminate; vm_compute; auto.
Qed.

Lemma spells_OPEN_lower x : spells_OPEN x ↔ lower x = str "open".
Proof.
  split.
  - intros (o & p & e & n & -> & Ho & Hp & He & Hn).
    by destruct Ho as [-> | ->], Hp as [-> | ->], He as [-> | ->], Hn as [-> | ->].
  - intros Hx. destruct x as [|o [|p [|e [|n [|]]]]]; try done.
    injection Hx as Ho Hp He Hn. exists o, p, e, n. split; [done|].
    pose proof (lower_char_letter o) as Lo. pose proof (lower_char_letter p) as Lp.
    pose proof (lower_char_letter e) as Le. pose proof (lower_char_letter n) as Ln.
    rewrite Ho in Lo. rewrite Hp in Lp. rewrite He in Le. rewrite Hn in Ln.
    destruct (Lo eq_refl), (Lp eq_refl), (Le eq_refl), (Ln eq_refl); subst;
      repeat split; auto.
Qed.




(** ** The section sentinel followed by a headed row *)

(** C4.  On the three example rows the builder gives a section "Work"
    with no rows, followed by a new section "Acme Inc" that holds the pair
    row and the description row. *)
Theorem build_sections_work_acme :
  Fold.build_sections
    [[str "SECTION: Work"; str ""; str ""];
     [str "Acme Inc"; str "Engineer"; str "2020-2022"];
     [str ""; str "Built X"; str ""]]
  = [{| label := str "Work"; id := str "work"; rows := [] |};
     {| label := str "Acme Inc"; id := str "acme-inc";
        rows := [RowPair (str "Engineer") (str "2020-2022");
                 RowDesc (str "Built X")] |}].
Proof. reflexivity. Qed.

(** ** The two builders *)

Lemma build_row_same bf bn raw :
  same_state bf bn →
  hidden_match (column raw 0) = None →
  (is_Some (sec_match (column raw 0)) → column raw 1 = [] ∧ column raw 2 = []) →
  same_state (Fold.build_row bf raw) (NoFold.build_row bn raw).
Proof.
  destruct bf as [sf cf pf], bn as [sn cn]. intros (Hs & Hc & Hp) Hhid Hsec.
  simpl in Hs, Hc, Hp. subst sn cn pf.
  unfold Fold.build_row, NoFold.build_row. rewrite Hhid.
  change NoFold.nonempty with Fold.nonempty.
  destruct (negb (Fold.nonempty (column raw 0)) && _ && _); [done|].
  destruct (sec_match (column raw 0)) as [name|].
  - destruct Hsec as [-> ->]; [done|]. done.
  - destruct (Fold.nonempty (column raw 0)).
    + unfold Fold.current_section, NoFold.current_section. simpl.
      destruct (cf ≫= λ k, sf !! k) as [sec|];
        [case_bool_decide|];
        destruct (Fold.nonempty (column raw 1) || Fold.nonempty (column raw 2));
        try done.
      all: unfold Fold.append_row, NoFold.append_row; simpl; by destruct cf.
    + simpl. unfold Fold.ensure_section, NoFold.ensure_section. simpl.
      destruct cf; destruct (Fold.nonempty (column raw 2)); done.
Qed.

Lemma build_rows_same rows : ∀ bf bn,
  same_state bf bn →
  Forall (λ raw, hidden_match (column raw 0) = None) rows →
  Forall (λ raw, is_Some (sec_match (column raw 0)) →
                 column raw 1 = [] ∧ column raw 2 = []) rows →
  same_state (fold_left Fold.build_row rows bf) (fold_left NoFold.build_row rows bn).
Proof.
  induction rows as [|raw rows IH]; intros bf bn Hst Hhid Hsec; simpl; [done|].
  apply Forall_cons in Hhid as [Hh Hhid], Hsec as [Hs Hsec].
  apply IH; [by apply build_row_same | done | done].
Qed.

(** C5, as the code has it.  On rows none of whose trimmed headings is a
    fold-start sentinel, and whose section sentinel rows carry neither
    content nor meta, the two builders give the same list of sections. *)
Theorem builders_agree (rows : list (list text)) :
  Forall (λ raw, hidden_match (column raw 0) = None) rows →
  Forall (λ raw, is_Some (sec_match (column raw 0)) →
                 column raw 1 = [] ∧ column raw 2 = []) rows →
  Fold.build_sections rows = NoFold.build_sections rows.
Proof.
  intros Hhid Hsec.
  by destruct (build_rows_same rows Fold.builder_init NoFold.builder_init) as (H & _).
Qed.

Lemma builders_agree_witness :
  Forall (λ raw, hidden_match (column raw 0) = None)
    [[str "SECTION: Work"]; [str "Acme Inc"; str "Engineer"; str "2020"]]
  ∧ Forall (λ raw, is_Some (sec_match (column raw 0)) →
                   column raw 1 = [] ∧ column raw 2 = [])
      [[str "SECTION: Work"]; [str "Acme Inc"; str "Engineer"; str "2020"]]
  ∧ Fold.build_sections [[str "SECTION: Work"]; [str "Acme Inc"; str "Engineer"; str "2020"]]
    = NoFold.build_sections [[str "SECTION: Work"]; [str "Acme Inc"; str "Engineer"; str "2020"]].
Proof.
  assert (H1 : Forall (λ raw, hidden_match (column raw 0) = None)
                 [[str "SECTION: Work"]; [str "Acme Inc"; str "Engineer"; str "2020"]])
    by (repeat constructor).
  assert (H2 : Forall (λ raw, is_Some (sec_match (column raw 0)) →
                              column raw 1 = [] ∧ column raw 2 = [])
                 [[str "SECTION: Work"]; [str "Acme Inc"; str "Engineer"; str "2020"]]).
  { constructor; [intros _; split; reflexivity|].
    constructor; [|constructor].
    intros [x Hx]. vm_compute in Hx. discriminate. }
  split; [exact H1|]. split; [exact H2|].
  exact (builders_agree _ H1 H2).
Defined.

(** C5 as stated fails on a section sentinel row that carries content: the
    builder without fold blocks appends a pair row for it, the builder with
    fold blocks appends nothing. *)
Lemma builders_differ_counterexample :
  Forall (λ raw, hidden_match (column raw 0) = None)
    [[str "SECTION: Work"; str "Engineer"; str "2020"]]
  ∧ Fold.build_sections [[str "SECTION: Work"; str "Engineer"; str "2020"]]
    = [{| label := str "Work"; id := str "work"; rows := [] |}]
  ∧ NoFold.build_sections [[str "SECTION: Work"; str "Engineer"; str "2020"]]
    = [{| label := str "Work"; id := str "work";
          rows := [RowPair (str "Engineer") (str "2020")] |}]
  ∧ Fold.build_sections [[str "SECTION: Work"; str "Engineer"; str "2020"]]
    ≠ NoFold.build_sections [[str "SECTION: Work"; str "Engineer"; str "2020"]].
Proof.
  split; [repeat constructor|]. split; [reflexivity|]. split; [reflexivity|].
  vm_compute. discriminate.
Qed.

(** ** The layout of a section *)

Lemma existsb_has_meta l :
  existsb has_meta l = false ↔ ∀ main meta, RowPair main meta ∈ l → meta = [].
Proof.
  induction l as [|r l IH]; simpl.
  - split; [|done]. intros _ ?? H. by apply elem_of_nil in H.
  - rewrite orb_false_iff, IH. split.
    + intros [Hr Hl] main meta [<-|Hin]%elem_of_cons; [|by eapply Hl].
      simpl in Hr. by apply negb_false_iff, bool_decide_eq_true in Hr.
    + intros H. split.
      * destruct r as [main meta| |]; simpl; try done.
        apply negb_false_iff, bool_decide_eq_true. eapply H. by left.
      * intros main meta Hin. eapply H. by right.
Qed.

Lemma existsb_has_meta_pairs l :
  existsb has_meta (filter (λ r, is_pair r = true) l) = existsb has_meta l.
Proof.
  induction l as [|r l IH]; [done|].
  rewrite filter_cons. destruct r; simpl; by rewrite ?IH.
Qed.

(** C6.  A section gets the class [entry--two] exactly when none of its
    pair rows has a meta that is not empty.  Only the pair rows count.  The
    class stands in the section's second chunk, before any row is rendered,
    and the markup of a section depends on that section alone, wherever it
    stands in the list. *)
Theorem two_column_layout (HTML_HEAD : text → text) (title : text) :
  (∀ sec,
     (entry_classes sec = str "entry entry--two"
      ↔ ∀ main meta, RowPair main meta ∈ rows sec → meta = [])
     ∧ (entry_classes sec = str "entry"
        ↔ ∃ main meta, RowPair main meta ∈ rows sec ∧ meta ≠ [])
     ∧ entry_classes sec
       = entry_classes {| label := label sec; id := id sec;
                          rows := filter (λ r, is_pair r = true) (rows sec) |}
     ∧ render_section sec
       = [str "      <section aria-labelledby=" ++ attr (id sec) ++ str ">" ++ [NL];
          str "        <div class=" ++ attr (entry_classes sec)
            ++ str " id=" ++ attr (id sec) ++ str ">" ++ [NL];
          div_line "          " "label" (label sec)]
         ++ concat (map render_row (rows sec))
         ++ [line "        </div>"; line "      </section>" ++ [NL]])
  ∧ (∀ before sec after,
       render_html HTML_HEAD title (before ++ sec :: after)
       = concat ([HTML_HEAD title;
                  str "      <h1 class=" ++ attr (str "title") ++ str ">" ++ title
                    ++ str "</h1>" ++ [NL]]
                 ++ concat (map render_section before))
         ++ concat (render_section sec)
         ++ concat (concat (map render_section after) ++ [HTML_TAIL])).
Proof.
  split.
  - intros sec. unfold entry_classes.
    pose proof (existsb_has_meta (rows sec)) as Hex.
    split; [|split; [|split; [|done]]].
    + destruct (existsb has_meta (rows sec)); simpl.
      * split; [done|]. intros H. by apply Hex in H.
      * split; [intros _; by apply Hex | done].
    + destruct (existsb has_meta (rows sec)) eqn:Hb; simpl.
      * split; [intros _|done].
        apply existsb_exists in Hb as (r & Hin & Hr).
        destruct r as [main meta| |]; simpl in Hr; try done.
        exists main, meta. split; [by apply list_elem_of_In|].
        by apply negb_true_iff, bool_decide_eq_false in Hr.
      * split; [done|]. intros (main & meta & Hin & Hne).
        destruct Hne. by eapply (proj1 Hex).
    + simpl. by rewrite existsb_has_meta_pairs.
  - intros before sec after. unfold render_html.
    set (head := [HTML_HEAD title; _]).
    rewrite map_app, map_cons.
    generalize (map render_section before) as done_before.
    generalize (map render_section after) as to_do.
    generalize (render_section sec) as chunks. intros.
    rewrite !concat_app, concat_cons, !concat_app. by rewrite <- !app_assoc.
Qed.

(** ** Totality *)

Section BuilderRefs.
Import Fold.

Lemma refs_ok_start name b : refs_ok (start_section name b).
Proof. unfold refs_ok, start_section. simpl. rewrite length_app. simpl. lia. Qed.

Lemma refs_ok_ensure b : refs_ok b → refs_ok (ensure_section b).
Proof.
  unfold ensure_section. destruct (current b) eqn:Hc; [done|].
  intros _. apply refs_ok_start.
Qed.

Lemma ensure_section_current b : is_Some (current (ensure_section b)).
Proof. unfold ensure_section. destruct (current b) eqn:Hc; simpl; eauto. Qed.

(** Appending a row to the current section, with no fold block pending. *)
Lemma refs_ok_append r b :
  refs_ok b → pending_hidden b = None → refs_ok (append_row r b).
Proof.
  unfold refs_ok, append_row. intros Hok Hp.
  destruct (current b) as [k|] eqn:Hc; simpl; [|by rewrite Hc].
  rewrite ?Hc, Hp, length_alter. by destruct Hok.
Qed.

Lemma append_row_pending r b : pending_hidden (append_row r b) = pending_hidden b.
Proof. unfold append_row. by destruct (current b). Qed.

(** Every round of the builder keeps the references in place. *)
Lemma refs_ok_build_row b raw : refs_ok b → refs_ok (build_row b raw).
Proof.
  intros Hok. unfold build_row.
  destruct (negb (nonempty (column raw 0)) && _ && _); [done|].
  destruct (sec_match (column raw 0)) as [name|]; [apply refs_ok_start|].
  destruct (hidden_match (column raw 0)) as [flags|].
  - (* a fold block starts *)
    pose proof (refs_ok_ensure b Hok) as Hok1.
    destruct (ensure_section_current b) as [k Hk].
    set (b1 := ensure_section b) in *.
    unfold refs_ok in Hok1. rewrite Hk in Hok1. destruct Hok1 as [Hlen _].
    destruct (lookup_lt_is_Some_2 (sections b1) k) as [sec Hsec]; [lia|].
    unfold refs_ok, next_row, current_section, append_row. simpl.
    repeat (rewrite ?Hk, ?Hsec; simpl).
    rewrite length_alter. split; [done|]. split; [done|].
    eexists _, _, _, _. rewrite list_lookup_alter_eq, Hsec. simpl.
    split; [done|]. simpl.
    rewrite length_app, lookup_app_r, Nat.sub_diag by done.
    simpl. split; [done|lia].
  - destruct (nonempty (column raw 0)).
    + (* a plain heading *)
      set (b0 := {| sections := sections b; current := current b;
                    pending_hidden := None |}).
      assert (Hok0 : refs_ok b0).
      { unfold refs_ok in *. simpl. destruct (current b); [|by destruct Hok].
        by destruct Hok. }
      assert (Hok1 : ∀ b1, refs_ok b1 → pending_hidden b1 = None →
                refs_ok (if nonempty (column raw 1) || nonempty (column raw 2)
                         then append_row (RowPair (column raw 1) (column raw 2)) b1
                         else b1)).
      { intros b1 H1 H2. destruct (_ || _); [by apply refs_ok_append | done]. }
      destruct (current_section b0) as [sec|]; [case_bool_decide|];
        apply Hok1; try done; apply refs_ok_start.
    + destruct (pending_hidden b) as [[k' j]|] eqn:Hp.
      * (* an item of the pending fold block *)
        destruct (nonempty (column raw 1) || nonempty (column raw 2)); [|done].
        unfold refs_ok, append_item in *. rewrite Hp in *. simpl.
        destruct (current b) as [k|]; [|by destruct Hok].
        destruct Hok as (Hlen & -> & sec & summary & open & items & Hsec & Hrow & Hj).
        rewrite ?Hp, length_alter. split; [done|]. split; [done|].
        eexists _, _, _, _. rewrite list_lookup_alter_eq, Hsec. simpl.
        split; [done|]. unfold alter_row. simpl.
        rewrite list_lookup_alter_eq, Hrow, length_alter. simpl.
        done.
      * (* a pair or a description *)
        assert (Hp1 : pending_hidden (ensure_section b) = None).
        { unfold ensure_section. by destruct (current b). }
        destruct (nonempty (column raw 2));
          apply refs_ok_append; auto using refs_ok_ensure.
Qed.

Lemma refs_ok_build rows : ∀ b,
  refs_ok b → refs_ok (fold_left build_row rows b).
Proof.
  induction rows as [|raw rows IH]; intros b Hok; simpl; [done|].
  by apply IH, refs_ok_build_row.
Qed.

End BuilderRefs.

(** Every section carries the identifier derived from its label. *)
Lemma ids_derived_build_row b raw :
  Forall (λ sec, id sec = slugify (label sec)) (Fold.sections b) →
  Forall (λ sec, id sec = slugify (label sec)) (Fold.sections (Fold.build_row b raw)).
Proof.
  intros Hall.
  assert (Hstart : ∀ name b0,
    Forall (λ sec, id sec = slugify (label sec)) (Fold.sections b0) →
    Forall (λ sec, id sec = slugify (label sec))
      (Fold.sections (Fold.start_section name b0))).
  { intros name b0 H0. apply Forall_app. split; [done|]. by constructor. }
  assert (Happ : ∀ r b0,
    Forall (λ sec, id sec = slugify (label sec)) (Fold.sections b0) →
    Forall (λ sec, id sec = slugify (label sec))
      (Fold.sections (Fold.append_row r b0))).
  { intros r b0 H0. unfold Fold.append_row. destruct (Fold.current b0); [|done].
    simpl. by apply Forall_alter. }
  assert (Hens : ∀ b0,
    Forall (λ sec, id sec = slugify (label sec)) (Fold.sections b0) →
    Forall (λ sec, id sec = slugify (label sec))
      (Fold.sections (Fold.ensure_section b0))).
  { intros b0 H0. unfold Fold.ensure_section. destruct (Fold.current b0); auto. }
  unfold Fold.build_row.
  destruct (negb (Fold.nonempty (column raw 0)) && _ && _); [done|].
  destruct (sec_match (column raw 0)); [by apply Hstart|].
  destruct (hidden_match (column raw 0)); [simpl; by apply Happ, Hens|].
  destruct (Fold.nonempty (column raw 0)).
  - destruct (Fold.current_section _); [case_bool_decide|];
      destruct (_ || _); auto.
  - destruct (Fold.pending_hidden b) as [[k j]|] eqn:Hp.
    + destruct (_ || _); [|done]. unfold Fold.append_item. rewrite Hp. simpl.
      by apply Forall_alter.
    + destruct (Fold.nonempty (column raw 2)); auto.
Qed.

Lemma ids_derived_build rows : ∀ b,
  Forall (λ sec, id sec = slugify (label sec)) (Fold.sections b) →
  Forall (λ sec, id sec = slugify (label sec))
    (Fold.sections (fold_left Fold.build_row rows b)).
Proof.
  induction rows as [|raw rows IH]; intros b Hall; simpl; [done|].
  by apply IH, ids_derived_build_row.
Qed.

(** C9.  The core is total.  The scanning loop reaches the end of every
    text within the rounds it is given, so the formatter returns for every
    field.  The builder, on any rows of any width, keeps every reference it
    follows inside the list it builds, and every section it returns carries
    the identifier of its label.  The renderer wraps the markup of any
    section list between the head, the title line and the tail.  No rows
    give no sections, and no sections give a page with nothing between the
    title line and the tail. *)
Theorem core_total (HTML_HEAD : text → text) (title : text) :
  (∀ t, length t ≤ i (scan (length t) t scan_init))
  ∧ (∀ rows, refs_ok (fold_left Fold.build_row rows Fold.builder_init))
  ∧ (∀ rows, Forall (λ sec, id sec = slugify (label sec)) (Fold.build_sections rows))
  ∧ (∀ secs,
       render_html HTML_HEAD title secs
       = HTML_HEAD title
         ++ (str "      <h1 class=" ++ attr (str "title") ++ str ">" ++ title
               ++ str "</h1>" ++ [NL])
         ++ concat (concat (map render_section secs))
         ++ HTML_TAIL)
  ∧ Fold.build_sections [] = []
  ∧ render_html HTML_HEAD title []
    = HTML_HEAD title
      ++ (str "      <h1 class=" ++ attr (str "title") ++ str ">" ++ title
            ++ str "</h1>" ++ [NL])
      ++ HTML_TAIL.
Proof.
  assert (Hpage : ∀ secs,
    render_html HTML_HEAD title secs
    = HTML_HEAD title
      ++ (str "      <h1 class=" ++ attr (str "title") ++ str ">" ++ title
            ++ str "</h1>" ++ [NL])
      ++ concat (concat (map render_section secs))
      ++ HTML_TAIL).
  { intros secs. unfold render_html.
    generalize (concat (map render_section secs)) as chunks. intros chunks.
    rewrite concat_app, concat_app. cbn [concat]. by rewrite !app_nil_r, <- !app_assoc. }
  split; [|split; [|split; [|split; [|split]]]].
  - intros t. apply scan_finishes. simpl. lia.
  - intros rows. by apply refs_ok_build.
  - intros rows. by apply ids_derived_build.
  - exact Hpage.
  - reflexivity.
  - by rewrite Hpage.
Qed.

(** * Further properties *)

(** ** The converter on simple texts *)

Lemma settled_text_no_newline l : ∀ m, NL ∉ l → settled_text m l = true.
Proof.
  induction l as [|c l IH]; intros m Hnl; simpl; [done|].
  apply not_elem_of_cons in Hnl as [Hc Hl]. rewrite IH by done.
  rewrite andb_true_r. unfold settled.
  destruct m as [[] [q|]]; try done; by rewrite bool_decide_eq_false_2.
Qed.

(** X1.  A text without line breaks comes back unchanged, whatever markup,
    quotes or white space it holds. *)
Theorem nl_to_br_without_newline (t : text) :
  NL ∉ t → nl_to_br_outside_tags t = t.
Proof.
  intros Hnl. unfold nl_to_br_outside_tags.
  apply (scan_settled t [] scan_init); [done | | done].
  by apply settled_text_no_newline.
Qed.

Lemma nl_to_br_without_newline_witness :
  (NL ∉ str "<a href='x'>y</a>")
  ∧ nl_to_br_outside_tags (str "<a href='x'>y</a>") = str "<a href='x'>y</a>".
Proof.
  assert (H : NL ∉ str "<a href='x'>y</a>") by not_in_text.
  split; [exact H|]. exact (nl_to_br_without_newline _ H).
Defined.

Lemma scan_plain suf : ∀ pre s fuel,
  LT ∉ pre ++ suf →
  i s = length pre →
  in_tag s = false →
  length suf ≤ fuel →
  concat (out (scan fuel (pre ++ suf) s))
  = concat (out s) ++ replace_char NL (str "<br>") suf.
Proof.
  induction suf as [|c suf IH]; intros pre s fuel Hlt Hi Htag Hfuel.
  - simpl. rewrite !app_nil_r. destruct fuel; simpl; [done|].
    case_bool_decide; [lia | done].
  - destruct fuel as [|fuel]; simpl in Hfuel; [lia|]. simpl scan.
    rewrite bool_decide_eq_true_2 by (rewrite length_app; simpl; lia).
    assert (Hlk : (pre ++ c :: suf) !! i s = Some c).
    { rewrite Hi. by rewrite list_lookup_middle. }
    assert (Hc : c ≠ LT).
    { intros ->. apply Hlt. apply elem_of_app. right. by left. }
    assert (Hnext : next_nonspace (pre ++ c :: suf) (i s) ≠ Some LT).
    { unfold next_nonspace. intros H. by apply list_elem_of_lookup_2 in H. }
    assert (Hstep : scan_step (pre ++ c :: suf) s =
              {| i := S (i s); in_tag := false; quote := quote s;
                 out := out s ++ [if bool_decide (c = NL) then str "<br>" else [c]] |}).
    { unfold scan_step, emit. rewrite Hlk, Htag.
      rewrite (bool_decide_eq_false_2 (c = LT)) by done.
      rewrite (bool_decide_eq_false_2 (next_nonspace _ _ = _)) by done.
      rewrite andb_false_r. by case_bool_decide. }
    rewrite Hstep.
    replace (pre ++ c :: suf) with ((pre ++ [c]) ++ suf) in * by (by rewrite <- app_assoc).
    rewrite IH; try done.
    + simpl. rewrite concat_app. simpl. rewrite app_nil_r. by rewrite <- app_assoc.
    + simpl. rewrite length_app. simpl. lia.
    + lia.
Qed.

(** X2.  On a text without any [<] every line break becomes [<br>] and nothing
    else changes: the formatting rule needs a [<] after the break. *)
Theorem nl_to_br_without_markup (t : text) :
  LT ∉ t → nl_to_br_outside_tags t = replace_char NL (str "<br>") t.
Proof.
  intros Hlt. unfold nl_to_br_outside_tags.
  by rewrite (scan_plain t [] scan_init).
Qed.

Lemma nl_to_br_without_markup_witness :
  (LT ∉ str "a>" ++ NL :: str " b")
  ∧ nl_to_br_outside_tags (str "a>" ++ NL :: str " b") = str "a><br> b".
Proof.
  assert (H : LT ∉ str "a>" ++ NL :: str " b") by not_in_text.
  split; [exact H|]. exact (nl_to_br_without_markup _ H).
Defined.

(** Every character of the output is a character of the input or one of
    the characters the scanner writes itself. *)
Lemma scan_step_chars (P : ascii → Prop) t s :
  (∀ c, c ∈ t → P c) → P SP → Forall P (str "<br>") →
  Forall P (concat (out s)) → Forall P (concat (out (scan_step t s))).
Proof.
  intros Ht Hsp Hbr Hout. unfold scan_step, emit.
  destruct (t !! i s) as [ch|] eqn:Hch; [|done].
  assert (Pch : P ch) by (by eapply Ht, list_elem_of_lookup_2).
  repeat case_match; simpl; try done;
    rewrite concat_app; apply Forall_app; split; try done; simpl;
    rewrite ?app_nil_r; try done; by repeat constructor.
Qed.

Lemma scan_chars (P : ascii → Prop) fuel t : ∀ s,
  (∀ c, c ∈ t → P c) → P SP → Forall P (str "<br>") →
  Forall P (concat (out s)) → Forall P (concat (out (scan fuel t s))).
Proof.
  induction fuel as [|fuel IH]; intros s Ht Hsp Hbr Hout; simpl; [done|].
  case_bool_decide; [|done]. apply IH; try done. by apply scan_step_chars.
Qed.

Lemma settled_text_unquoted l : ∀ b,
  SQ ∉ l → DQ ∉ l → settled_text (b, None) l = true → NL ∉ l.
Proof.
  induction l as [|c l IH]; intros b Hsq Hdq Hs; [apply not_elem_of_nil|].
  apply not_elem_of_cons in Hsq as [Hsq1 Hsq], Hdq as [Hdq1 Hdq].
  cbn [settled_text] in Hs. apply andb_true_iff in Hs as [Hc Hs].
  assert (Hne : c ≠ NL).
  { destruct b; simpl in Hc; by apply negb_true_iff, bool_decide_eq_false in Hc. }
  apply not_elem_of_cons. split; [done|].
  assert (Hm : ∃ b', track (b, None) c = (b', None)).
  { unfold track. destruct b.
    - rewrite (bool_decide_eq_false_2 (c = SQ)), (bool_decide_eq_false_2 (c = DQ)) by done.
      simpl. destruct (bool_decide (c = GT)); by eexists.
    - destruct (bool_decide (c = LT)); by eexists. }
  destruct Hm as [b' Hm]. rewrite Hm in Hs. by eapply IH.
Qed.

(** X3.  When the text holds no quote character, the output holds no line
    break at all: each one was turned into [<br>] or a space, or dropped. *)
Theorem nl_to_br_leaves_no_newline (t : text) :
  SQ ∉ t → DQ ∉ t → NL ∉ nl_to_br_outside_tags t.
Proof.
  intros Hsq Hdq.
  assert (Hq : Forall (λ c, c ≠ SQ ∧ c ≠ DQ) (nl_to_br_outside_tags t)).
  { unfold nl_to_br_outside_tags. apply scan_chars; try done.
    - intros c Hc. split; by intros ->.
    - by repeat constructor. }
  apply (settled_text_unquoted _ false).
  - intros H. by destruct (proj1 (Forall_forall _ _) Hq _ H).
  - intros H. by destruct (proj1 (Forall_forall _ _) Hq _ H).
  - apply nl_to_br_settled.
Qed.

Lemma nl_to_br_leaves_no_newline_witness :
  (SQ ∉ str "<b" ++ NL :: str ">x" ++ NL :: str "y")
  ∧ (DQ ∉ str "<b" ++ NL :: str ">x" ++ NL :: str "y")
  ∧ NL ∉ nl_to_br_outside_tags (str "<b" ++ NL :: str ">x" ++ NL :: str "y").
Proof.
  assert (H1 : SQ ∉ str "<b" ++ NL :: str ">x" ++ NL :: str "y") by not_in_text.
  assert (H2 : DQ ∉ str "<b" ++ NL :: str ">x" ++ NL :: str "y") by not_in_text.
  split; [exact H1|]. split; [exact H2|].
  exact (nl_to_br_leaves_no_newline _ H1 H2).
Defined.

(** The output only grows from round to round. *)
Lemma scan_step_grows t s : ∃ e, out (scan_step t s) = out s ++ e.
Proof.
  unfold scan_step, emit. destruct (t !! i s); [|exists []; by rewrite app_nil_r].
  repeat case_match; simpl; eauto. exists []. by rewrite app_nil_r.
Qed.

Lemma scan_grows fuel t : ∀ s, ∃ e, out (scan fuel t s) = out s ++ e.
Proof.
  induction fuel as [|fuel IH]; intros s; simpl.
  - exists []. by rewrite app_nil_r.
  - case_bool_decide; [|exists []; by rewrite app_nil_r].
    destruct (scan_step_grows t s) as [e1 He1].
    destruct (IH (scan_step t s)) as [e2 He2].
    exists (e1 ++ e2). by rewrite He2, He1, app_assoc.
Qed.

(** A character that is no line break is copied in every mode. *)
Lemma scan_step_copies t s c :
  t !! i s = Some c → c ≠ NL → out (scan_step t s) = out s ++ [[c]].
Proof.
  intros Hc Hne. unfold scan_step, emit. rewrite Hc.
  rewrite (bool_decide_eq_false_2 (c = NL)) by done.
  by repeat case_match.
Qed.

(** X4.  No character other than white space is lost: the scanner stops at it
    and copies it. *)
Theorem nl_to_br_keeps_characters (t : text) (c : ascii) :
  c ∈ t → isspace c = false → c ∈ nl_to_br_outside_tags t.
Proof.
  intros [k Hk]%list_elem_of_lookup_1 Hns.
  destruct (scan_arrives t k c Hk Hns) as [m Hm].
  unfold nl_to_br_outside_tags. rewrite <- (scan_after_rounds t m).
  set (s0 := Nat.iter m (scan_step t) scan_init) in *.
  rewrite <- (scan_after_step (length t) t s0) by lia.
  destruct (scan_grows (length t) t (scan_step t s0)) as [e ->].
  rewrite (scan_step_copies t s0 c) by (by rewrite ?Hm; try (intros ->)).
  rewrite !concat_app. apply elem_of_app. left. apply elem_of_app. right.
  simpl. by left.
Qed.

Lemma nl_to_br_keeps_characters_witness :
  "<" ∈ str "x<"
  ∧ isspace "<" = false
  ∧ "<" ∈ nl_to_br_outside_tags (str "x<").
Proof.
  assert (H : "<" ∈ str "x<") by (right; left).
  split; [exact H|]. split; [reflexivity|].
  exact (nl_to_br_keeps_characters (str "x<") "<" H eq_refl).
Defined.

(** ** The paragraph formatter in general *)

Lemma replace_char_removes old new t :
  old ∉ new → old ∉ replace_char old new t.
Proof.
  intros Hnew. induction t as [|c t IH]; simpl; [apply not_elem_of_nil|].
  rewrite elem_of_app. intros [H|H]; [|done].
  case_bool_decide as Hc; [done|]. apply list_elem_of_singleton in H. congruence.
Qed.

Lemma replace_char_absent old new t : old ∉ t → replace_char old new t = t.
Proof.
  induction t as [|c t IH]; simpl; [done|].
  intros [Hc Ht]%not_elem_of_cons. rewrite IH by done.
  by rewrite bool_decide_eq_false_2 by done.
Qed.

Lemma replace_crlf_absent t : CR ∉ t → replace_crlf t = t.
Proof.
  induction t as [|c t IH]; [done|].
  intros [Hc Ht]%not_elem_of_cons. destruct t as [|d r]; [done|].
  change (replace_crlf (c :: d :: r))
    with (if bool_decide (c = CR) && bool_decide (d = NL)
          then NL :: replace_crlf r else c :: replace_crlf (d :: r)).
  rewrite (bool_decide_eq_false_2 (c = CR)) by done.
  change (false && bool_decide (d = NL)) with false. cbv iota. by rewrite IH.
Qed.

(** X5.  After normalisation no carriage return is left, and normalising again
    changes nothing. *)
Theorem normalize_newlines_no_cr (t : text) :
  (CR ∉ normalize_newlines t)
  ∧ normalize_newlines (normalize_newlines t) = normalize_newlines t.
Proof.
  assert (H : CR ∉ normalize_newlines t).
  { unfold normalize_newlines. apply replace_char_removes. by not_in_text. }
  split; [done|]. unfold normalize_newlines at 1.
  by rewrite replace_crlf_absent, replace_char_absent.
Qed.

Lemma split_blank_lines_nonempty t : ∀ skip cur, split_blank_lines skip cur t ≠ [].
Proof.
  induction t as [|c t IH]; intros skip cur; simpl; [done|].
  destruct skip; [|done]. repeat case_match; done.
Qed.

Lemma has_blank_line_sound t : has_blank_line t = true → blank_line_boundary t.
Proof.
  induction t as [|c t IH]; simpl; [done|].
  intros [H|H]%orb_true_iff.
  - apply andb_true_iff in H as [Hc Hs]. apply bool_decide_eq_true in Hc as ->.
    apply bool_decide_eq_true in Hs as [k Hk].
    destruct (blank_line_after_spec t k Hk) as (w & b & -> & Hall).
    by exists [], w, b.
  - destruct (IH H) as (a & w & b & -> & Hall). by exists (c :: a), w, b.
Qed.

Lemma split_blank_lines_many t : ∀ cur,
  has_blank_line t = true → 2 ≤ length (split_blank_lines 0 cur t).
Proof.
  induction t as [|c t IH]; intros cur; simpl; [done|].
  case_bool_decide as Hc; simpl.
  - destruct (blank_line_after t) as [k|] eqn:Hk.
    + intros _. simpl.
      pose proof (split_blank_lines_nonempty t k []) as Hne.
      destruct (split_blank_lines k [] t); [done|]. simpl. lia.
    + rewrite bool_decide_eq_false_2 by (by intros [? ?]). simpl. apply IH.
  - apply IH.
Qed.

(** X6.  The split on blank lines gives the text back as its only block exactly
    when the text has no blank-line boundary; with one it gives two blocks
    or more. *)
Theorem re_split_blank_single (t : text) :
  (re_split_blank t = [t] ↔ ¬ blank_line_boundary t)
  ∧ (blank_line_boundary t ↔ 2 ≤ length (re_split_blank t)).
Proof.
  assert (H1 : ¬ blank_line_boundary t → re_split_blank t = [t]).
  { intros H. unfold re_split_blank. by rewrite split_blank_lines_whole. }
  assert (H2 : blank_line_boundary t → 2 ≤ length (re_split_blank t)).
  { intros H. by apply split_blank_lines_many, has_blank_line_complete. }
  split; split; try done.
  - intros Heq Hb. apply H2 in Hb. rewrite Heq in Hb. simpl in Hb. lia.
  - intros Hlen. destruct (has_blank_line t) eqn:Hb; [by apply has_blank_line_sound|].
    apply no_blank_line, H1 in Hb. rewrite Hb in Hlen. simpl in Hlen. lia.
Qed.

Lemma TAG_RE_search_lt t : TAG_RE_search t = true → LT ∈ t.
Proof.
  induction t as [|c t IH]; simpl; [done|].
  intros [H|H]%orb_true_iff.
  - apply andb_true_iff in H as [Hc _]. apply bool_decide_eq_true in Hc as ->. by left.
  - right. by apply IH.
Qed.

Lemma join_nonempty sep x l : x ≠ [] → join sep (x :: l) ≠ [].
Proof. destruct l; simpl; [done|]. by destruct x. Qed.

(** X7.  The formatter returns the empty text for blank input and for no other
    input. *)
Theorem auto_html_empty_iff (t : text) :
  auto_html t = [] ↔ strip t = [].
Proof.
  unfold auto_html. case_bool_decide as Hb; [done|]. split; [|done].
  simpl. destruct (TAG_RE_search (normalize_newlines t)) eqn:Htag; simpl.
  - intros Hout. apply TAG_RE_search_lt in Htag.
    apply (nl_to_br_keeps_characters _ LT) in Htag; [|done].
    rewrite Hout in Htag. by apply elem_of_nil in Htag.
  - unfold re_split_blank.
    pose proof (split_blank_lines_nonempty (strip (normalize_newlines t)) 0 []) as Hne.
    destruct (split_blank_lines 0 [] (strip (normalize_newlines t))) as [|b bs]; [done|].
    intros Hout. exfalso. cbn [map] in Hout. revert Hout. by apply join_nonempty.
Qed.

Lemma join_paragraphs_shape sep l :
  l ≠ [] → Forall (λ p, ∃ body, p = str "<p>" ++ body ++ str "</p>" ∧ NL ∉ body) l →
  ∃ rest, join sep l = str "<p>" ++ rest.
Proof.
  destruct l as [|x l]; [done|]. intros _ Hall.
  apply Forall_cons in Hall as [(body & -> & _) _].
  destruct l; simpl; eauto.
Qed.

(** X8.  Plain text, not blank and without a tag, comes back as one or more
    paragraph containers joined by line breaks, and inside a container
    there is no line break left. *)
Theorem auto_html_plain_paragraphs (t : text) :
  strip t ≠ [] →
  TAG_RE_search (normalize_newlines t) = false →
  ∃ ps, ps ≠ []
        ∧ auto_html t = join [NL] ps
        ∧ length ps = length (re_split_blank (strip (normalize_newlines t)))
        ∧ Forall (λ p, ∃ body, p = str "<p>" ++ body ++ str "</p>" ∧ NL ∉ body) ps.
Proof.
  intros Hne Htag. unfold auto_html. rewrite bool_decide_eq_false_2 by done.
  simpl. rewrite Htag. simpl.
  exists (map paragraph (re_split_blank (strip (normalize_newlines t)))).
  split; [|split; [done|split; [by rewrite length_map|]]].
  - unfold re_split_blank.
    pose proof (split_blank_lines_nonempty (strip (normalize_newlines t)) 0 []).
    by destruct (split_blank_lines _ _ _).
  - apply Forall_map, Forall_forall. intros b _. unfold paragraph.
    eexists. split; [done|]. apply replace_char_removes. by not_in_text.
Qed.

Lemma auto_html_plain_paragraphs_witness :
  strip (str "a" ++ NL :: NL :: str "b") ≠ []
  ∧ TAG_RE_search (normalize_newlines (str "a" ++ NL :: NL :: str "b")) = false
  ∧ ∃ ps, ps ≠ [] ∧ auto_html (str "a" ++ NL :: NL :: str "b") = join [NL] ps
          ∧ length ps = 2.
Proof.
  assert (H1 : strip (str "a" ++ NL :: NL :: str "b") ≠ []) by (vm_compute; discriminate).
  split; [exact H1|]. split; [reflexivity|].
  destruct (auto_html_plain_paragraphs (str "a" ++ NL :: NL :: str "b") H1 eq_refl)
    as (ps & Hne & Heq & Hlen & _).
  exists ps. split; [exact Hne|]. split; [exact Heq|]. exact Hlen.
Defined.

(** ** Identifiers *)

Lemma slug_ok_facts c :
  slug_ok c = true → c ≠ LT ∧ isspace c = false ∧ lower_char c = c.
Proof.
  destruct c as [[] [] [] [] [] [] [] []]; intros H; vm_compute in H;
    try discriminate; repeat split; done.
Qed.

Lemma rev_dropwhile_prefix {A} (p : A → bool) (l : list A) :
  ∃ w, l = rev (dropwhile p (rev l)) ++ w.
Proof.
  destruct (dropwhile_suffix p (rev l)) as (w & Hw & _).
  exists (rev w). rewrite <- rev_app_distr, <- Hw. by rewrite rev_involutive.
Qed.

Lemma strip_char_infix c t : ∃ w1 w2, t = w1 ++ strip_char c t ++ w2.
Proof.
  unfold strip_char.
  destruct (dropwhile_suffix (λ x, bool_decide (x = c)) t) as (w1 & H1 & _).
  destruct (rev_dropwhile_prefix (λ x, bool_decide (x = c))
              (dropwhile (λ x, bool_decide (x = c)) t)) as (w2 & H2).
  exists w1, w2. by rewrite <- H2.
Qed.

Lemma strip_char_last c t y x : strip_char c t = y ++ [x] → x ≠ c.
Proof.
  unfold strip_char. intros H. apply (f_equal (@rev _)) in H.
  rewrite rev_involutive, rev_unit in H. apply dropwhile_head in H.
  by apply bool_decide_eq_false in H.
Qed.

Lemma strip_char_head c t x r : strip_char c t = x :: r → x ≠ c.
Proof.
  unfold strip_char. intros H.
  destruct (rev_dropwhile_prefix (λ x, bool_decide (x = c))
              (dropwhile (λ x, bool_decide (x = c)) t)) as (w & Hw).
  rewrite H in Hw. simpl in Hw. apply dropwhile_head in Hw.
  by apply bool_decide_eq_false in Hw.
Qed.

Lemma dropwhile_none {A} (p : A → bool) l :
  (∀ x r, l = x :: r → p x = false) → dropwhile p l = l.
Proof. destruct l as [|x r]; [done|]. intros H. simpl. by rewrite (H x r). Qed.

Lemma strip_char_fixed c t :
  (∀ x r, t = x :: r → x ≠ c) → (∀ y x, t = y ++ [x] → x ≠ c) →
  strip_char c t = t.
Proof.
  intros Hh Hl. unfold strip_char.
  rewrite (dropwhile_none _ t).
  - rewrite dropwhile_none; [apply rev_involutive|].
    intros x r Hr. apply bool_decide_eq_false. apply (Hl (rev r) x).
    by rewrite <- (rev_involutive t), Hr.
  - intros x r Hr. apply bool_decide_eq_false. by eapply Hh.
Qed.

Lemma strip_fixed t :
  Forall (λ c, isspace c = false) t → strip t = t.
Proof.
  intros Hall. unfold strip, rstrip, lstrip.
  rewrite (dropwhile_none _ t).
  - rewrite dropwhile_none; [apply rev_involutive|].
    intros x r Hr. apply (proj1 (Forall_forall _ _) Hall).
    apply list_elem_of_In, in_rev. rewrite Hr. by left.
  - intros x r ->. by apply Forall_cons in Hall as [? _].
Qed.

Lemma strip_tags_fixed t : LT ∉ t → strip_tags false t = t.
Proof.
  induction t as [|c t IH]; simpl; [done|].
  intros [Hc Ht]%not_elem_of_cons.
  rewrite (bool_decide_eq_false_2 (c = LT)) by done. simpl. by rewrite IH.
Qed.

Lemma dash_runs_chars t : ∀ b, Forall (λ c, slug_ok c = true) (dash_runs b t).
Proof.
  induction t as [|c t IH]; intros b; simpl; [done|].
  destruct (is_slug_char c) eqn:Hc.
  - constructor; [|done]. unfold slug_ok. by rewrite Hc.
  - destruct b; [done|]. by constructor.
Qed.

Lemma is_slug_char_not_hyphen c : is_slug_char c = true → c ≠ "-".
Proof. by intros H ->. Qed.

Lemma dash_runs_apart t : ∀ b,
  hyphens_apart (dash_runs b t)
  ∧ (b = true → ∀ r, dash_runs b t ≠ "-" :: r).
Proof.
  induction t as [|c t IH]; intros b; simpl; [done|].
  destruct (is_slug_char c) eqn:Hc.
  - destruct (IH false) as [Ha _]. split; [split; [|done]|].
    + destruct (dash_runs false t); [done|].
      intros [-> _]. by vm_compute in Hc.
    + intros _ r [= -> _]. by vm_compute in Hc.
  - destruct b; [apply IH|]. destruct (IH true) as [Ha Hh].
    split; [|done]. split; [|done].
    destruct (dash_runs true t) eqn:Hd; [done|].
    intros [_ ->]. by apply (Hh eq_refl l).
Qed.

Lemma hyphens_apart_app a b :
  hyphens_apart (a ++ b) → hyphens_apart a ∧ hyphens_apart b.
Proof.
  induction a as [|x a IH]; simpl; [done|].
  intros [Hx Hr]. destruct (IH Hr) as [Ha Hb]. split; [|done]. split; [|done].
  destruct a; [done|]. done.
Qed.

Lemma hyphens_apart_no_pair l a b :
  hyphens_apart l → l ≠ a ++ "-" :: "-" :: b.
Proof.
  intros Hl ->. apply hyphens_apart_app in Hl as [_ [Hp _]]. by apply Hp.
Qed.

(** The shape of every identifier. *)
Lemma slugify_shape t :
  slugify t ≠ []
  ∧ Forall (λ c, slug_ok c = true) (slugify t)
  ∧ hyphens_apart (slugify t)
  ∧ (∀ x r, slugify t = x :: r → x ≠ "-")
  ∧ (∀ y x, slugify t = y ++ [x] → x ≠ "-").
Proof.
  unfold slugify.
  set (u := dash_runs false (lower (strip (strip_tags false t)))).
  case_bool_decide as He.
  - split; [done|]. split; [|split; [|split]].
    + by repeat constructor.
    + simpl. repeat split; by intros [? ?].
    + by intros x r [= <- _].
    + intros y x H. apply (f_equal (@rev _)) in H. rewrite rev_unit in H.
      by injection H as <- _.
  - destruct (strip_char_infix "-" u) as (w1 & w2 & Hu).
    split; [done|]. split; [|split; [|split]].
    + pose proof (dash_runs_chars (lower (strip (strip_tags false t))) false) as Hall.
      fold u in Hall. rewrite Hu in Hall.
      by apply Forall_app in Hall as [_ [Hall _]%Forall_app].
    + destruct (dash_runs_apart (lower (strip (strip_tags false t))) false) as [Ha _].
      fold u in Ha. rewrite Hu in Ha.
      by apply hyphens_apart_app in Ha as [_ [Ha _]%hyphens_apart_app].
    + apply strip_char_head.
    + apply strip_char_last.
Qed.

(** X9.  An identifier is never empty, is made of [a-z], [0-9] and hyphens only,
    neither starts nor ends with a hyphen, and never has two hyphens in a
    row. *)
Theorem slugify_identifier_safe (t : text) :
  slugify t ≠ []
  ∧ Forall (λ c, is_slug_char c = true ∨ c = "-") (slugify t)
  ∧ (∀ r, slugify t ≠ "-" :: r)
  ∧ (∀ y, slugify t ≠ y ++ ["-"])
  ∧ (∀ a b, slugify t ≠ a ++ "-" :: "-" :: b).
Proof.
  destruct (slugify_shape t) as (Hne & Hall & Hap & Hh & Hl).
  split; [done|]. split; [|split; [|split]].
  - eapply Forall_impl; [exact Hall|]. intros c Hc. unfold slug_ok in Hc.
    apply orb_true_iff in Hc as [?|Hc]; [by left|]. right.
    by apply bool_decide_eq_true in Hc.
  - intros r Hr. by apply (Hh _ _ Hr).
  - intros y Hy. by apply (Hl _ _ Hy).
  - intros a b. by apply hyphens_apart_no_pair.
Qed.

Lemma dash_runs_fixed l : ∀ b,
  Forall (λ c, slug_ok c = true) l → hyphens_apart l →
  (b = true → ∀ r, l ≠ "-" :: r) →
  dash_runs b l = l.
Proof.
  induction l as [|c l IH]; intros b Hall Hap Hh; [done|].
  apply Forall_cons in Hall as [Hc Hall]. destruct Hap as [Hp Hap]. simpl.
  destruct (is_slug_char c) eqn:Hs.
  - by rewrite IH.
  - unfold slug_ok in Hc. rewrite Hs in Hc. simpl in Hc.
    apply bool_decide_eq_true in Hc as ->.
    destruct b; [by destruct (Hh eq_refl l)|].
    rewrite IH; try done. intros _ r ->. by apply Hp.
Qed.

(** X10.  An identifier is its own identifier: [slugify] is idempotent. *)
Theorem slugify_idempotent (t : text) : slugify (slugify t) = slugify t.
Proof.
  destruct (slugify_shape t) as (Hne & Hall & Hap & Hh & Hl).
  generalize dependent (slugify t). intros s Hne Hall Hap Hh Hl.
  unfold slugify.
  rewrite strip_tags_fixed.
  2:{ intros Hin. apply (proj1 (Forall_forall _ _) Hall) in Hin.
      by apply slug_ok_facts in Hin as [? _]. }
  rewrite strip_fixed.
  2:{ eapply Forall_impl; [exact Hall|]. intros c Hc.
      by apply slug_ok_facts in Hc as (_ & ? & _). }
  assert (Hlow : lower s = s).
  { unfold lower. clear -Hall. induction Hall as [|c l Hc _ IH]; simpl; [done|].
    rewrite IH. by apply slug_ok_facts in Hc as (_ & _ & ->). }
  rewrite Hlow, dash_runs_fixed, strip_char_fixed; try done.
  by rewrite bool_decide_eq_false_2.
Qed.

(** ** The builders on whole inputs *)

Lemma blank_row_spec raw :
  blank_row raw = true ↔
  negb (Fold.nonempty (column raw 0)) && negb (Fold.nonempty (column raw 1))
  && negb (Fold.nonempty (column raw 2)) = true.
Proof. unfold blank_row, Fold.nonempty. by rewrite !negb_involutive. Qed.

Lemma blank_row_guard raw :
  negb (Fold.nonempty (column raw 0)) && negb (Fold.nonempty (column raw 1))
  && negb (Fold.nonempty (column raw 2)) = blank_row raw.
Proof. unfold blank_row, Fold.nonempty. by rewrite !negb_involutive. Qed.

Lemma fold_build_row_blank b raw : blank_row raw = true → Fold.build_row b raw = b.
Proof. intros H. unfold Fold.build_row. by rewrite blank_row_guard, H. Qed.

Lemma nofold_build_row_blank b raw : blank_row raw = true → NoFold.build_row b raw = b.
Proof.
  intros H. unfold NoFold.build_row. change NoFold.nonempty with Fold.nonempty.
  by rewrite blank_row_guard, H.
Qed.

(** X11.  Blank rows, wherever they stand, change nothing: both builders give
    what they give on the input without them. *)
Theorem build_sections_skip_blank_rows (rows : list (list text)) :
  Fold.build_sections rows
  = Fold.build_sections (filter (λ raw, blank_row raw = false) rows)
  ∧ NoFold.build_sections rows
    = NoFold.build_sections (filter (λ raw, blank_row raw = false) rows).
Proof.
  unfold Fold.build_sections, NoFold.build_sections. split; f_equal.
  - generalize Fold.builder_init as b.
    induction rows as [|raw rows IH]; intros b; [done|].
    rewrite filter_cons. destruct (blank_row raw) eqn:Hb.
    + rewrite decide_False by done. simpl. by rewrite fold_build_row_blank, IH.
    + rewrite decide_True by done. simpl. by rewrite IH.
  - generalize NoFold.builder_init as b.
    induction rows as [|raw rows IH]; intros b; [done|].
    rewrite filter_cons. destruct (blank_row raw) eqn:Hb.
    + rewrite decide_False by done. simpl. by rewrite nofold_build_row_blank, IH.
    + rewrite decide_True by done. simpl. by rewrite IH.
Qed.

Lemma column_three_columns raw n : n < 3 → column (three_columns raw) n = column raw n.
Proof.
  intros Hn. unfold three_columns.
  destruct n as [|[|[|n]]]; [| | |lia]; unfold column at 1; simpl; apply strip_idemp.
Qed.

(** X12.  The builders read the first three fields of a row, trimmed, and take a
    missing field as empty: further fields and outer white space change
    nothing. *)
Theorem build_sections_three_columns (rows : list (list text)) :
  Fold.build_sections rows = Fold.build_sections (map three_columns rows)
  ∧ NoFold.build_sections rows = NoFold.build_sections (map three_columns rows).
Proof.
  assert (Hf : ∀ b raw, Fold.build_row b (three_columns raw) = Fold.build_row b raw).
  { intros b raw. unfold Fold.build_row. by rewrite !column_three_columns by lia. }
  assert (Hn : ∀ b raw, NoFold.build_row b (three_columns raw) = NoFold.build_row b raw).
  { intros b raw. unfold NoFold.build_row. by rewrite !column_three_columns by lia. }
  unfold Fold.build_sections, NoFold.build_sections. split; f_equal.
  - generalize Fold.builder_init as b.
    induction rows as [|raw rows IH]; intros b; simpl; [done|]. by rewrite Hf, IH.
  - generalize NoFold.builder_init as b.
    induction rows as [|raw rows IH]; intros b; simpl; [done|]. by rewrite Hn, IH.
Qed.

Section BuilderInvariants.
Import Fold.

(** A property of sections that new sections have and that appending a
    row or an item keeps is a property of everything the builder returns. *)
Lemma build_row_sections_invariant (P : Sect → Prop) b raw :
  (∀ name, (∃ flags, sec_match (column raw 0) = Some flags ∧ name = strip flags)
           ∨ name = str "Section"
           ∨ (name = column raw 0 ∧ name ≠ []) → P (new_section name)) →
  (∀ r sec, P sec → row_filled r → P (push_row r sec)) →
  (∀ it j sec, P sec → (item_html it ≠ [] ∨ item_meta it ≠ []) →
     P (alter_row (push_item it) j sec)) →
  Forall P (sections b) → Forall P (sections (build_row b raw)).
Proof.
  intros Hnew Hpush Hitem Hall.
  assert (Hstart : ∀ name b0, P (new_section name) →
            Forall P (sections b0) → Forall P (sections (start_section name b0))).
  { intros name b0 Hn H0. apply Forall_app. split; [done|]. by constructor. }
  assert (Happ : ∀ r b0, row_filled r →
            Forall P (sections b0) → Forall P (sections (append_row r b0))).
  { intros r b0 Hr H0. unfold append_row. destruct (current b0); [|done].
    simpl. apply Forall_alter; [done|]. intros sec _ Hs. by apply Hpush. }
  assert (Hens : ∀ b0, Forall P (sections b0) → Forall P (sections (ensure_section b0))).
  { intros b0 H0. unfold ensure_section. destruct (current b0); [done|].
    apply Hstart; [|done]. apply Hnew. by right; left. }
  unfold build_row. rewrite blank_row_guard.
  destruct (blank_row raw) eqn:Hblank; [done|].
  destruct (sec_match (column raw 0)) as [name|] eqn:Hsec.
  { apply Hstart; [|done]. apply Hnew. left. by exists name. }
  destruct (hidden_match (column raw 0)) as [flags|].
  { simpl. apply Happ; [|by apply Hens]. simpl. split; [|done].
    destruct (nonempty (column raw 1)) eqn:Hc; [by apply nonempty_true|done]. }
  destruct (nonempty (column raw 0)) eqn:Hh.
  - apply nonempty_true in Hh.
    assert (Hpair : ∀ b0, Forall P (sections b0) →
      Forall P (sections (if nonempty (column raw 1) || nonempty (column raw 2)
                          then append_row (RowPair (column raw 1) (column raw 2)) b0
                          else b0))).
    { intros b0 H0. destruct (_ || _) eqn:Hor; [|done]. apply Happ; [|done].
      simpl. apply orb_true_iff in Hor as [H|H]; apply nonempty_true in H; auto. }
    destruct (current_section _); [case_bool_decide|]; apply Hpair; try done;
      apply Hstart; try done; apply Hnew; right; right; done.
  - destruct (pending_hidden b) as [[k j]|] eqn:Hp.
    + destruct (_ || _) eqn:Hor; [|done]. unfold append_item. rewrite Hp. simpl.
      apply Forall_alter; [done|]. intros sec _ Hs. apply Hitem; [done|]. simpl.
      apply orb_true_iff in Hor as [H|H]; apply nonempty_true in H; auto.
    + apply nonempty_false in Hh.
      destruct (nonempty (column raw 2)) eqn:Hm; apply Happ; try (by apply Hens); simpl.
      * right. by apply nonempty_true.
      * apply nonempty_false in Hm. unfold blank_row in Hblank.
        rewrite Hh, Hm in Hblank. rewrite !bool_decide_eq_true_2 in Hblank by done.
        simpl in Hblank. rewrite andb_true_r in Hblank.
        by apply bool_decide_eq_false in Hblank.
Qed.

Lemma build_sections_invariant (P : Sect → Prop) rows :
  (∀ name, name ≠ [] → P (new_section name)) →
  (∀ r sec, P sec → row_filled r → P (push_row r sec)) →
  (∀ it j sec, P sec → (item_html it ≠ [] ∨ item_meta it ≠ []) →
     P (alter_row (push_item it) j sec)) →
  (∀ raw flags, sec_match (column raw 0) = Some flags → strip flags ≠ []) →
  Forall P (build_sections rows).
Proof.
  intros Hnew Hpush Hitem Hname. unfold build_sections.
  assert (H0 : Forall P (sections builder_init)) by constructor.
  revert H0. generalize builder_init as b.
  induction rows as [|raw rows IH]; intros b H0; simpl; [done|].
  apply IH. apply build_row_sections_invariant; try done.
  intros name [(flags & Hm & ->)|[->|[-> Hne]]]; apply Hnew; try done.
  by eapply Hname.
Qed.

End BuilderInvariants.

(** The name caught by the section sentinel *)

Lemma dot_plus_end_spec r g :
  dot_plus_end r = Some g → g ≠ [] ∧ (NL ∉ g) ∧ (r = g ∨ r = g ++ [NL]).
Proof.
  unfold dot_plus_end. destruct (dot_star_end r) as [[|c body]|] eqn:Hd; try done.
  intros [= <-]. split; [done|]. split.
  - by eapply dot_star_end_no_newline.
  - by apply dot_star_end_split.
Qed.

Lemma space_then_dot_plus_spec k r g :
  space_then_dot_plus k r = Some g →
  ∃ j, j ≤ k ∧ dot_plus_end (drop j r) = Some g.
Proof.
  induction k as [|k IH]; simpl.
  - destruct (dot_plus_end (drop 0 r)) eqn:Hd; [|done]. intros [= <-]. by exists 0.
  - destruct (dot_plus_end (drop (S k) r)) eqn:Hd.
    + intros [= <-]. by exists (S k).
    + intros H. destruct (IH H) as (j & Hj & Hg). exists j. split; [lia|done].
Qed.

Lemma takewhile_Forall {A} (p : A → bool) l : Forall (λ x, p x = true) (takewhile p l).
Proof.
  induction l as [|x l IH]; simpl; [done|]. destruct (p x) eqn:Hp; [|done].
  by constructor.
Qed.

Lemma take_takewhile {A} (p : A → bool) l j :
  j ≤ length (takewhile p l) → Forall (λ x, p x = true) (take j l).
Proof.
  intros Hj. rewrite <- (takewhile_drop p l) at 1.
  rewrite take_app_le by done. apply Forall_take, takewhile_Forall.
Qed.

Lemma sec_match_split (t name : text) :
  sec_match (strip t) = Some name →
  name ≠ [] ∧ (NL ∉ name) ∧ strip name ≠ []
  ∧ ∃ kw ws1 ws2,
      strip t = kw ++ ws1 ++ ":" :: ws2 ++ name
      ∧ lower kw = str "section"
      ∧ Forall (λ c, isspace c = true) ws1
      ∧ Forall (λ c, isspace c = true) ws2.
Proof.
  unfold sec_match. rewrite lstrip_strip.
  destruct (match_ci (str "SECTION") (strip t)) as [r1|] eqn:Hm; [|done].
  destruct (match_ci_split _ _ _ Hm) as (kw & Hkw & Hlow).
  destruct (dropwhile_suffix isspace r1) as (ws1 & Hr1 & Hws1).
  unfold lstrip. destruct (dropwhile isspace r1) as [|c r2]; [done|].
  case_bool_decide as Hc; [|done]. subst c. intros Hs.
  destruct (space_then_dot_plus_spec _ _ _ Hs) as (j & Hj & Hd).
  destruct (dot_plus_end_spec _ _ Hd) as (Hne & Hnl & Hrest).
  pose proof (take_takewhile isspace r2 j Hj) as Hws2.
  assert (Hdec : strip t = kw ++ ws1 ++ ":" :: take j r2 ++ drop j r2).
  { by rewrite take_drop, Hkw, Hr1. }
  assert (Hend : drop j r2 = name).
  { destruct Hrest as [?|Hrest]; [done|]. exfalso.
    rewrite Hrest in Hdec.
    replace (kw ++ ws1 ++ ":" :: take j r2 ++ name ++ [NL])
      with ((kw ++ ws1 ++ ":" :: take j r2 ++ name) ++ [NL]) in Hdec
      by (by rewrite <- !app_assoc; simpl; rewrite <- !app_assoc).
    by apply strip_last in Hdec. }
  rewrite Hend in Hdec.
  split; [done|]. split; [done|]. split.
  - destruct (exists_last Hne) as (y & x & Hy).
    assert (Hx : isspace x = false).
    { rewrite Hy in Hdec.
      replace (kw ++ ws1 ++ ":" :: take j r2 ++ y ++ [x])
        with ((kw ++ ws1 ++ ":" :: take j r2 ++ y) ++ [x]) in Hdec
        by (by rewrite <- !app_assoc; simpl; rewrite <- !app_assoc).
      by apply strip_last in Hdec. }
    intros Hs0. destruct (strip_infix name) as (w1 & w2 & Hn).
    rewrite Hs0 in Hn. simpl in Hn.
    assert (Hall : Forall (λ c, isspace c = true) name).
    { unfold strip, rstrip, lstrip in Hs0.
      destruct (dropwhile_suffix isspace name) as (u & Hu & Hall).
      apply (f_equal (@rev _)) in Hs0. rewrite rev_involutive in Hs0. simpl in Hs0.
      destruct (dropwhile_suffix isspace (rev (dropwhile isspace name)))
        as (v & Hv & Hallv).
      rewrite Hs0, app_nil_r in Hv. apply (f_equal (@rev _)) in Hv.
      rewrite rev_involutive in Hv. rewrite Hv in Hu. rewrite Hu.
      apply Forall_app. split; [done|]. by apply Forall_rev. }
    rewrite Hy in Hall. apply Forall_app in Hall as [_ Hall].
    apply Forall_cons in Hall as [Hall _]. congruence.
  - by exists kw, ws1, (take j r2).
Qed.



(** X14.  Every section the builder returns has a label that is not empty, and
    every row in it holds some text: a pair row has a main text or a meta, a
    description has its text, a fold block has a summary, and every item of
    a fold block has a text or a meta. *)
Theorem build_sections_filled (input : list (list text)) :
  Forall (λ sec, label sec ≠ [] ∧ Forall row_filled (rows sec))
    (Fold.build_sections input).
Proof.
  apply build_sections_invariant.
  - intros name Hne. by split.
  - intros r sec [Hl Hr] Hf. split; [done|]. simpl.
    apply Forall_app. split; [done|]. by constructor.
  - intros it j sec [Hl Hr] Hit. split; [done|]. simpl.
    apply Forall_alter; [done|]. intros r _ Hrf.
    destruct r as [| |summary open items]; try done. simpl in *.
    destruct Hrf as [Hs Hi]. split; [done|].
    apply Forall_app. split; [done|]. by constructor.
  - intros raw flags Hm. by apply sec_match_split in Hm as (_ & _ & ? & _).
Qed.

(** ** Sections once started *)

Section BuilderGrowth.
Import Fold.

Lemma map_alter_same {A B} (f : A → B) (g : A → A) k l :
  (∀ x, f (g x) = f x) → map f (alter g k l) = map f l.
Proof.
  intros Hfg. revert k. induction l as [|x l IH]; intros k; [done|].
  destruct k; simpl; [by rewrite Hfg | f_equal; apply IH].
Qed.

(** One row adds at most one section and leaves the labels and
    identifiers of the sections before it as they are. *)
Lemma build_row_grows b raw :
  ∃ added,
    map (λ sec, (label sec, id sec)) (sections (build_row b raw))
    = map (λ sec, (label sec, id sec)) (sections b) ++ added
    ∧ length added ≤ 1.
Proof.
  assert (Hsame : ∀ b0, ∃ added,
            map (λ sec, (label sec, id sec)) (sections b0)
            = map (λ sec, (label sec, id sec)) (sections b0) ++ added
            ∧ length added ≤ 1).
  { intros b0. exists []. rewrite app_nil_r. simpl. split; [done|lia]. }
  assert (Happ : ∀ r b0,
            map (λ sec, (label sec, id sec)) (sections (append_row r b0))
            = map (λ sec, (label sec, id sec)) (sections b0)).
  { intros r b0. unfold append_row. destruct (current b0); [|done].
    simpl. by apply map_alter_same. }
  assert (Hstart : ∀ name b0, ∃ added,
            map (λ sec, (label sec, id sec)) (sections (start_section name b0))
            = map (λ sec, (label sec, id sec)) (sections b0) ++ added
            ∧ length added ≤ 1).
  { intros name b0. eexists. unfold start_section. simpl. rewrite map_app.
    split; [done|]. simpl. lia. }
  assert (Hens : ∀ b0, ∃ added,
            map (λ sec, (label sec, id sec)) (sections (ensure_section b0))
            = map (λ sec, (label sec, id sec)) (sections b0) ++ added
            ∧ length added ≤ 1).
  { intros b0. unfold ensure_section. destruct (current b0); auto. }
  unfold build_row.
  destruct (negb (nonempty (column raw 0)) && _ && _); [apply Hsame|].
  destruct (sec_match (column raw 0)); [apply Hstart|].
  destruct (hidden_match (column raw 0)).
  { simpl. rewrite Happ. apply Hens. }
  destruct (nonempty (column raw 0)).
  - destruct (current_section _); [case_bool_decide|];
      destruct (_ || _); rewrite ?Happ;
      try apply (Hstart (column raw 0) (Builder (sections b) (current b) None));
      apply (Hsame b).
  - destruct (pending_hidden b) as [[k j]|] eqn:Hp.
    + destruct (_ || _); [|apply Hsame]. unfold append_item. rewrite Hp. simpl.
      rewrite map_alter_same by done. apply Hsame.
    + destruct (nonempty (column raw 2)); rewrite Happ; apply Hens.
Qed.

Lemma build_rows_grow more : ∀ b,
  ∃ added,
    map (λ sec, (label sec, id sec)) (sections (fold_left build_row more b))
    = map (λ sec, (label sec, id sec)) (sections b) ++ added
    ∧ length added ≤ length more.
Proof.
  induction more as [|raw more IH]; intros b; simpl.
  - exists []. rewrite app_nil_r. split; [done|simpl; lia].
  - destruct (build_row_grows b raw) as (a1 & H1 & L1).
    destruct (IH (build_row b raw)) as (a2 & H2 & L2).
    exists (a1 ++ a2). rewrite H2, H1, <- app_assoc. split; [done|].
    rewrite length_app. lia.
Qed.

(** X15.  More input never removes, renames or reorders a section that is
    already there: the labels and identifiers built from a prefix of the
    input stay, in place, and there are never more sections than rows. *)
Theorem build_sections_grow (input more : list (list text)) :
  (∃ added,
     map (λ sec, (label sec, id sec)) (build_sections (input ++ more))
     = map (λ sec, (label sec, id sec)) (build_sections input) ++ added)
  ∧ length (build_sections input) ≤ length input.
Proof.
  unfold build_sections. split.
  - rewrite fold_left_app.
    destruct (build_rows_grow more (fold_left build_row input builder_init))
      as (added & H & _). by exists added.
  - destruct (build_rows_grow input builder_init) as (added & H & L).
    apply (f_equal length) in H. rewrite length_map in H. simpl in H. lia.
Qed.

(** Rows under one heading *)

Lemma build_row_same_heading sec raw :
  column raw 0 = label sec → label sec ≠ [] →
  sec_match (label sec) = None → hidden_match (label sec) = None →
  build_row (Builder [sec] (Some 0) None) raw
  = Builder [{| label := label sec; id := id sec; rows := rows sec ++ pair_of raw |}]
      (Some 0) None.
Proof.
  intros Hh Hne Hs Hhid. unfold build_row, pair_of. rewrite Hh, Hs, Hhid.
  apply nonempty_true in Hne. rewrite Hne. simpl.
  rewrite bool_decide_eq_false_2 by (by intros H).
  destruct (_ || _); [done|]. rewrite app_nil_r. by destruct sec.
Qed.

Lemma build_rows_same_heading rest : ∀ sec,
  label sec ≠ [] → sec_match (label sec) = None → hidden_match (label sec) = None →
  Forall (λ raw, column raw 0 = label sec) rest →
  sections (fold_left build_row rest (Builder [sec] (Some 0) None))
  = [{| label := label sec; id := id sec;
        rows := rows sec ++ concat (map pair_of rest) |}].
Proof.
  induction rest as [|raw rest IH]; intros sec Hne Hs Hhid Hall; simpl.
  - rewrite app_nil_r. by destruct sec.
  - apply Forall_cons in Hall as [Hh Hall].
    rewrite build_row_same_heading by done. rewrite IH by done. simpl.
    by rewrite <- app_assoc.
Qed.

(** X16.  Rows that all carry the same plain heading make one section: its
    label is the heading, and its rows are the pairs of those rows whose
    content or meta is not empty, in order. *)
Theorem same_heading_one_section (first : list text) (rest : list (list text)) :
  column first 0 ≠ [] →
  sec_match (column first 0) = None →
  hidden_match (column first 0) = None →
  Forall (λ raw, column raw 0 = column first 0) rest →
  build_sections (first :: rest)
  = [{| label := column first 0; id := slugify (column first 0);
        rows := concat (map pair_of (first :: rest)) |}].
Proof.
  intros Hne Hs Hhid Hall. unfold build_sections. simpl.
  assert (Hfirst : build_row builder_init first
            = Builder [{| label := column first 0; id := slugify (column first 0);
                          rows := pair_of first |}] (Some 0) None).
  { unfold build_row, pair_of. rewrite Hs, Hhid.
    apply nonempty_true in Hne. rewrite Hne. simpl. by destruct (_ || _). }
  rewrite Hfirst. by rewrite build_rows_same_heading.
Qed.

Lemma same_heading_one_section_witness :
  column [str "Acme"; str "Engineer"; str "2020"] 0 ≠ []
  ∧ sec_match (column [str "Acme"; str "Engineer"; str "2020"] 0) = None
  ∧ hidden_match (column [str "Acme"; str "Engineer"; str "2020"] 0) = None
  ∧ Forall (λ raw, column raw 0 = column [str "Acme"; str "Engineer"; str "2020"] 0)
      [[str "Acme"]; [str " Acme "; str ""; str "2021"]]
  ∧ length (build_sections [[str "Acme"; str "Engineer"; str "2020"];
                            [str "Acme"]; [str " Acme "; str ""; str "2021"]]) = 1.
Proof.
  assert (H1 : column [str "Acme"; str "Engineer"; str "2020"] 0 ≠ [])
    by (vm_compute; discriminate).
  assert (H4 : Forall (λ raw, column raw 0 = column [str "Acme"; str "Engineer"; str "2020"] 0)
                 [[str "Acme"]; [str " Acme "; str ""; str "2021"]])
    by (repeat constructor).
  split; [exact H1|]. split; [reflexivity|]. split; [reflexivity|]. split; [exact H4|].
  exact (f_equal length (same_heading_one_section _ _ H1 eq_refl eq_refl H4)).
Defined.

(** A fold block and its items *)

Lemma build_rows_items items : ∀ label0 id0 before summary open collected,
  Forall (λ raw, column raw 0 = [] ∧ blank_row raw = false) items →
  sections (fold_left build_row items
    (Builder [{| label := label0; id := id0;
                 rows := before ++ [RowHidden summary open collected] |}]
       (Some 0) (Some (0, length before))))
  = [{| label := label0; id := id0;
        rows := before ++ [RowHidden summary open (collected ++ map item_of items)] |}].
Proof.
  induction items as [|raw items IH]; intros label0 id0 before summary open collected Hall;
    simpl.
  - by rewrite app_nil_r.
  - apply Forall_cons in Hall as [[Hh Hnb] Hall].
    assert (Hstep : build_row
              (Builder [{| label := label0; id := id0;
                           rows := before ++ [RowHidden summary open collected] |}]
                 (Some 0) (Some (0, length before))) raw
            = Builder [{| label := label0; id := id0;
                          rows := before ++ [RowHidden summary open (collected ++ [item_of raw])] |}]
                (Some 0) (Some (0, length before))).
    { unfold build_row. rewrite blank_row_guard, Hnb, Hh. simpl.
      assert (Hor : nonempty (column raw 1) || nonempty (column raw 2) = true).
      { unfold blank_row in Hnb. rewrite Hh in Hnb.
        rewrite (bool_decide_eq_true_2 ([] = [])) in Hnb by done. simpl in Hnb.
        unfold nonempty. destruct (bool_decide (column raw 1 = []));
          destruct (bool_decide (column raw 2 = [])); done. }
      rewrite Hor. unfold append_item, alter_row. simpl.
      rewrite alter_app_r_alt, Nat.sub_diag by done. done. }
    rewrite Hstep, IH by done. by rewrite <- app_assoc.
Qed.

(** X17.  A fold-start row on an empty tree, followed by rows without heading,
    gives the one section "Section" with one fold block: the rows after it
    are its items, in order, and none of them becomes a row of the
    section. *)
Theorem fold_block_collects_items (hid : list text) (items : list (list text))
    (flags : text) :
  hidden_match (column hid 0) = Some flags →
  Forall (λ raw, column raw 0 = [] ∧ blank_row raw = false) items →
  build_sections (hid :: items)
  = [{| label := str "Section"; id := str "section";
        rows := [RowHidden (if nonempty (column hid 1) then column hid 1
                            else str "More details")
                   (contains (str "OPEN") (upper flags))
                   (map item_of items)] |}].
Proof.
  intros Hhid Hall. unfold build_sections. simpl.
  assert (Hfirst : build_row builder_init hid
            = Builder [{| label := str "Section"; id := str "section";
                          rows := [] ++ [RowHidden (if nonempty (column hid 1)
                                                    then column hid 1
                                                    else str "More details")
                                         (contains (str "OPEN") (upper flags)) []] |}]
                (Some 0) (Some (0, length (@nil Row)))).
  { unfold build_row. rewrite (hidden_match_not_section _ _ Hhid), Hhid.
    pose proof (hidden_match_nonempty _ _ Hhid) as Hne.
    apply nonempty_true in Hne. by rewrite Hne. }
  rewrite Hfirst. by rewrite build_rows_items.
Qed.

Lemma fold_block_collects_items_witness :
  hidden_match (column [str "Hidden"; str ""; str ""] 0) = Some []
  ∧ Forall (λ raw, column raw 0 = [] ∧ blank_row raw = false)
      [[str ""; str "one"]; [str ""; str ""; str "2020"]]
  ∧ build_sections [[str "Hidden"; str ""; str ""];
                    [str ""; str "one"]; [str ""; str ""; str "2020"]]
    = [{| label := str "Section"; id := str "section";
          rows := [RowHidden (str "More details") false
                     [{| item_html := str "one"; item_meta := [] |};
                      {| item_html := []; item_meta := str "2020" |}]] |}].
Proof.
  assert (H2 : Forall (λ raw, column raw 0 = [] ∧ blank_row raw = false)
                 [[str ""; str "one"]; [str ""; str ""; str "2020"]])
    by (repeat constructor).
  split; [reflexivity|]. split; [exact H2|].
  exact (fold_block_collects_items [str "Hidden"; str ""; str ""] _ [] eq_refl H2).
Defined.

End BuilderGrowth.

(** ** The pipeline without fold blocks *)

Lemma nofold_build_row_plain b raw :
  Forall (λ sec, Forall (λ r, is_hidden r = false) (rows sec)) (NoFold.sections b) →
  Forall (λ sec, Forall (λ r, is_hidden r = false) (rows sec))
    (NoFold.sections (NoFold.build_row b raw)).
Proof.
  intros Hall.
  assert (Hstart : ∀ name b0,
    Forall (λ sec, Forall (λ r, is_hidden r = false) (rows sec)) (NoFold.sections b0) →
    Forall (λ sec, Forall (λ r, is_hidden r = false) (rows sec))
      (NoFold.sections (NoFold.start_section name b0))).
  { intros name b0 H0. apply Forall_app. split; [done|]. by repeat constructor. }
  assert (Happ : ∀ r b0, is_hidden r = false →
    Forall (λ sec, Forall (λ r, is_hidden r = false) (rows sec)) (NoFold.sections b0) →
    Forall (λ sec, Forall (λ r, is_hidden r = false) (rows sec))
      (NoFold.sections (NoFold.append_row r b0))).
  { intros r b0 Hr H0. unfold NoFold.append_row. destruct (NoFold.current b0); [|done].
    simpl. apply Forall_alter; [done|]. intros sec _ Hs. simpl.
    apply Forall_app. split; [done|]. by constructor. }
  assert (Hens : ∀ b0,
    Forall (λ sec, Forall (λ r, is_hidden r = false) (rows sec)) (NoFold.sections b0) →
    Forall (λ sec, Forall (λ r, is_hidden r = false) (rows sec))
      (NoFold.sections (NoFold.ensure_section b0))).
  { intros b0 H0. unfold NoFold.ensure_section. destruct (NoFold.current b0); auto. }
  unfold NoFold.build_row.
  destruct (negb (NoFold.nonempty (column raw 0)) && _ && _); [done|].
  destruct (sec_match (column raw 0)).
  { destruct (_ || _); auto. }
  destruct (NoFold.nonempty (column raw 0)).
  - destruct (NoFold.current_section b); [case_bool_decide|]; destruct (_ || _); auto.
  - destruct (NoFold.nonempty (column raw 2)); auto.
Qed.

Lemma nofold_build_plain input :
  Forall (λ sec, Forall (λ r, is_hidden r = false) (rows sec))
    (NoFold.build_sections input).
Proof.
  unfold NoFold.build_sections.
  assert (H0 : Forall (λ sec, Forall (λ r, is_hidden r = false) (rows sec))
                 (NoFold.sections NoFold.builder_init)) by constructor.
  revert H0. generalize NoFold.builder_init as b.
  induction input as [|raw input IH]; intros b H0; simpl; [done|].
  by apply IH, nofold_build_row_plain.
Qed.

Lemma nofold_render_rows l :
  Forall (λ r, is_hidden r = false) l →
  mapM NoFoldPage.render_row l = Some (map render_row l).
Proof.
  induction 1 as [|r l Hr _ IH]; [done|].
  cbn [mapM map]. rewrite IH. by destruct r.
Qed.

Lemma nofold_render_sections HTML_HEAD title secs :
  Forall (λ sec, Forall (λ r, is_hidden r = false) (rows sec)) secs →
  NoFoldPage.render_html HTML_HEAD title secs
  = Some (render_html HTML_HEAD title secs).
Proof.
  intros Hall. unfold NoFoldPage.render_html, render_html.
  assert (Hm : mapM NoFoldPage.render_section secs = Some (map render_section secs)).
  { induction Hall as [|sec secs Hs _ IH]; [done|].
    cbn [mapM map]. rewrite IH. unfold NoFoldPage.render_section.
    by rewrite nofold_render_rows. }
  by rewrite Hm.
Qed.

(** X18.  The pipeline without fold blocks never fails: its builder returns no
    fold block, so its renderer never meets a row it cannot read, and the
    page it writes is the one the renderer with fold blocks writes for the
    same sections and the same page head. *)
Theorem nofold_pipeline_renders (HTML_HEAD : text → text) (title : text)
    (input : list (list text)) :
  Forall (λ sec, Forall (λ r, is_hidden r = false) (rows sec))
    (NoFold.build_sections input)
  ∧ NoFoldPage.render_html HTML_HEAD title (NoFold.build_sections input)
    = Some (render_html HTML_HEAD title (NoFold.build_sections input)).
Proof.
  split; [apply nofold_build_plain|].
  apply nofold_render_sections, nofold_build_plain.
Qed.

(** X19.  The renderer without fold blocks fails on every section list that
    holds a fold block. *)
Theorem nofold_render_fails_on_fold (HTML_HEAD : text → text) (title : text)
    (secs : list Sect) :
  NoFoldPage.render_html HTML_HEAD title secs = None
  ↔ ∃ sec r, sec ∈ secs ∧ r ∈ rows sec ∧ is_hidden r = true.
Proof.
  split.
  - intros Hnone.
    destruct (decide (Forall (λ sec, Forall (λ r, is_hidden r = false) (rows sec)) secs))
      as [Hall|Hnot].
    + by rewrite nofold_render_sections in Hnone.
    + apply not_Forall_Exists in Hnot; [|apply _].
      apply Exists_exists in Hnot as (sec & Hsec & Hrows).
      apply not_Forall_Exists in Hrows; [|apply _].
      apply Exists_exists in Hrows as (r & Hr & Hh).
      exists sec, r. split; [done|]. split; [done|].
      by apply not_false_is_true.
  - intros (sec & r & Hsec & Hr & Hh). unfold NoFoldPage.render_html.
    assert (Hrow : mapM NoFoldPage.render_row (rows sec) = None).
    { apply list_elem_of_split in Hr as (l1 & l2 & ->).
      clear Hsec. induction l1 as [|x l1 IH]; cbn [mapM app].
      - destruct r; try done.
      - rewrite IH. by destruct (NoFoldPage.render_row x). }
    assert (Hone : NoFoldPage.render_section sec = None).
    { unfold NoFoldPage.render_section. by rewrite Hrow. }
    assert (Hm : mapM NoFoldPage.render_section secs = None).
    { apply list_elem_of_split in Hsec as (s1 & s2 & ->).
      induction s1 as [|x s1 IH]; cbn [mapM app].
      - by rewrite Hone.
      - rewrite IH. by destruct (NoFoldPage.render_section x). }
    by rewrite Hm.
Qed.

(** ** The section sentinel in the two builders *)

(** X20.  A row whose trimmed heading matches the section sentinel always opens
    a new section at the end of the list, also when the name is the label
    of the current section.  What the row carries as content and meta is
    dropped by the builder with fold blocks and kept as a pair row by the
    builder without them. *)
Theorem section_sentinel_row (raw : list text) (name : text)
    (bf : Fold.builder) (bn : NoFold.builder) :
  sec_match (column raw 0) = Some name →
  Fold.sections (Fold.build_row bf raw)
  = Fold.sections bf ++ [{| label := strip name; id := slugify (strip name); rows := [] |}]
  ∧ Fold.current (Fold.build_row bf raw) = Some (length (Fold.sections bf))
  ∧ Fold.pending_hidden (Fold.build_row bf raw) = None
  ∧ NoFold.sections (NoFold.build_row bn raw)
    = NoFold.sections bn
      ++ [{| label := strip name; id := slugify (strip name); rows := pair_of raw |}]
  ∧ NoFold.current (NoFold.build_row bn raw) = Some (length (NoFold.sections bn)).
Proof.
  intros Hm.
  assert (Hne : Fold.nonempty (column raw 0) = true).
  { apply nonempty_true. intros H. by rewrite H in Hm. }
  unfold Fold.build_row, NoFold.build_row, pair_of.
  change NoFold.nonempty with Fold.nonempty. rewrite Hm, Hne. simpl.
  repeat split.
  - destruct (_ || _); [|done]. unfold NoFold.append_row. simpl.
    by rewrite alter_app_r_alt, Nat.sub_diag by done.
  - by destruct (_ || _).
Qed.

Lemma section_sentinel_row_witness :
  sec_match (column [str "section: Work"; str "Engineer"] 0) = Some (str "Work")
  ∧ Fold.sections (Fold.build_row
                     (Fold.Builder [new_section (str "Work")] (Some 0) None)
                     [str "section: Work"; str "Engineer"])
    = [new_section (str "Work"); new_section (str "Work")].
Proof.
  split; [reflexivity|].
  exact (proj1 (section_sentinel_row [str "section: Work"; str "Engineer"] (str "Work")
                  (Fold.Builder [new_section (str "Work")] (Some 0) None)
                  NoFold.builder_init eq_refl)).
Defined.
